(** * Gravity Golf: the scene engine

    A shallow embedding of the [Scene] class of [src/lib/scene/index.ts]
    (the complete version of the engine: the one with panning, stars, images
    and the force-count event) and the properties its specification states.

    Conventions of the embedding.

    - A JavaScript [number] is a real number ([R]): the operations are
      exact, their rounding is not modelled.  [Math.floor] is [Zfloor],
      [Math.min] is [Rmin], [Math.sqrt] is [sqrt].  A constant of the
      program is the number it names: [Math.PI] is a double, [Math_PI],
      and not the real [PI].
    - The scene mutates itself and its host (window, document, canvas): a
      method is a function from [World] to [World].
    - A force is a JavaScript object that [this.forces] and
      [this.mouseCurrent.force] both point to, and that [move] mutates in
      place.  Objects live in [heap]; a reference is an index into it.
    - Drawing ([clear], [drawImage], [fillRect], and [scale] of the
      context) writes to the canvas context, which nothing reads back: it
      is left out, and so is the [image] handle of ball, hole, star and
      force. *)

From Stdlib Require Import Reals Lra Lia ZArith String List.
From stdpp Require Import base decidable option list strings.
Import ListNotations.

#[local] Open Scope Z_scope.
#[local] Open Scope string_scope.
#[local] Open Scope list_scope.
#[local] Open Scope R_scope.

(** Comparisons of numbers are decided, as [===] and [<=] are. *)
#[global] Instance R_eq_dec : EqDecision R := Req_dec_T.
#[global] Instance Rle_rel_dec : RelDecision Rle := Rle_dec.

(** ** Data model *)

Module Position.
Record t := mk { x : R; y : R }.
End Position.

(** The shape of [level.ball], of a hole and of a star. *)
Module Circle.
Record t := mk { x : R; y : R; radius : R }.
Definition position (c : t) : Position.t := Position.mk (x c) (y c).
End Circle.

Module Ball.
Record t := mk { x : R; y : R; radius : R; vx : R; vy : R }.
Definition position (b : t) : Position.t := Position.mk (x b) (y b).
End Ball.

Module Wall.
Record t := mk { x : R; y : R; width : R; height : R }.
End Wall.

Module Force.
Record t := mk { x : R; y : R; direction : Z }.
Definition position (f : t) : Position.t := Position.mk (x f) (y f).
End Force.

#[global] Instance Force_inhabited : Inhabited Force.t :=
  populate (Force.mk 0 0 1).

Module Level.
Record t := mk {
    id : Z;
    ball : Circle.t;
    hole : Circle.t;
    stars : list Circle.t;
    walls : list Wall.t;
    defaultGravity : list Position.t;
    defaultAntigravity : list Position.t
  }.
End Level.

(** A reference to a force object. *)
Definition ref := nat.

Module MouseStart.
Record t := mk { x : R; y : R; button : Z }.
End MouseStart.

Module MouseCurrent.
Record t := mk { x : R; y : R; force : option ref }.
End MouseCurrent.

Record MouseEvent := { offsetX : R; offsetY : R; button : Z }.

(** ** The host *)

Inductive Target := Window | Document | CanvasElement.

(** The callbacks the scene hands to the host: its bound methods. *)
Inductive Handler := OnResize | OnKey | OnDown | OnMove | OnUp | OnRightClick.

Definition Listener : Type := Target * string * Handler.

#[global] Instance Target_eq_dec : EqDecision Target.
Proof. solve_decision. Defined.
#[global] Instance Handler_eq_dec : EqDecision Handler.
Proof. solve_decision. Defined.

(** Where [goto] is sent on a win. *)
Inductive Route := LevelIndex | LevelPage (id : Z).

Module Canvas.
Record t := mk { width : R; height : R; cursor : string }.
End Canvas.

Module Host.
Record t := mk {
    canvas : Canvas.t;
    devicePixelRatio : R;
    listeners : list Listener;
    (* handles of the frame callbacks requested and not yet run or cancelled *)
    frames : list nat;
    (* the handle the next [requestAnimationFrame] returns *)
    nextHandle : nat;
    alerts : list string;
    navigations : list Route
  }.
End Host.

(** ** The scene object *)

Module Scene.
Record t := mk {
    previousTime : option R;
    frame : option nat;
    center : Position.t;
    mouseStart : option MouseStart.t;
    mouseCurrent : option MouseCurrent.t;
    hit : bool;
    forces : list ref;
    ball : Ball.t;
    hole : Circle.t;
    stars : list Circle.t;
    walls : list Wall.t;
    level : Level.t
  }.
End Scene.

Record World := mkWorld {
  scene : Scene.t;
  host : Host.t;
  heap : list Force.t;
  (* the event dispatcher the scene extends: who listens, what was sent *)
  observers : list nat;
  emitted : list (nat * nat)
}.

(** ** Field updates

    An assignment to one field of a record: all the others are copied. *)

Module SceneSet.
Import Scene.
Definition previousTime (v : option R) (s : t) : t :=
  mk v (frame s) (center s) (mouseStart s) (mouseCurrent s) (hit s)
     (forces s) (ball s) (hole s) (stars s) (walls s) (level s).
Definition frame (v : option nat) (s : t) : t :=
  mk (Scene.previousTime s) v (center s) (mouseStart s) (mouseCurrent s) (hit s)
     (forces s) (ball s) (hole s) (stars s) (walls s) (level s).
Definition center (v : Position.t) (s : t) : t :=
  mk (Scene.previousTime s) (Scene.frame s) v (mouseStart s) (mouseCurrent s)
     (hit s) (forces s) (ball s) (hole s) (stars s) (walls s) (level s).
Definition mouseStart (v : option MouseStart.t) (s : t) : t :=
  mk (Scene.previousTime s) (Scene.frame s) (Scene.center s) v (mouseCurrent s)
     (hit s) (forces s) (ball s) (hole s) (stars s) (walls s) (level s).
Definition mouseCurrent (v : option MouseCurrent.t) (s : t) : t :=
  mk (Scene.previousTime s) (Scene.frame s) (Scene.center s) (Scene.mouseStart s)
     v (hit s) (forces s) (ball s) (hole s) (stars s) (walls s) (level s).
Definition hit (v : bool) (s : t) : t :=
  mk (Scene.previousTime s) (Scene.frame s) (Scene.center s) (Scene.mouseStart s)
     (Scene.mouseCurrent s) v (forces s) (ball s) (hole s) (stars s) (walls s)
     (level s).
Definition forces (v : list ref) (s : t) : t :=
  mk (Scene.previousTime s) (Scene.frame s) (Scene.center s) (Scene.mouseStart s)
     (Scene.mouseCurrent s) (Scene.hit s) v (ball s) (hole s) (stars s) (walls s)
     (level s).
Definition ball (v : Ball.t) (s : t) : t :=
  mk (Scene.previousTime s) (Scene.frame s) (Scene.center s) (Scene.mouseStart s)
     (Scene.mouseCurrent s) (Scene.hit s) (Scene.forces s) v (hole s) (stars s)
     (walls s) (level s).
End SceneSet.

Module HostSet.
Import Host.
Definition canvas (v : Canvas.t) (h : t) : t :=
  mk v (devicePixelRatio h) (listeners h) (frames h) (nextHandle h) (alerts h)
     (navigations h).
Definition listeners (v : list Listener) (h : t) : t :=
  mk (Host.canvas h) (devicePixelRatio h) v (frames h) (nextHandle h) (alerts h)
     (navigations h).
Definition frames (v : list nat) (h : t) : t :=
  mk (Host.canvas h) (devicePixelRatio h) (Host.listeners h) v (nextHandle h)
     (alerts h) (navigations h).
Definition nextHandle (v : nat) (h : t) : t :=
  mk (Host.canvas h) (devicePixelRatio h) (Host.listeners h) (Host.frames h) v
     (alerts h) (navigations h).
Definition alerts (v : list string) (h : t) : t :=
  mk (Host.canvas h) (devicePixelRatio h) (Host.listeners h) (Host.frames h)
     (Host.nextHandle h) v (navigations h).
Definition navigations (v : list Route) (h : t) : t :=
  mk (Host.canvas h) (devicePixelRatio h) (Host.listeners h) (Host.frames h)
     (Host.nextHandle h) (Host.alerts h) v.
End HostSet.

Definition on_scene (f : Scene.t -> Scene.t) (w : World) : World :=
  mkWorld (f (scene w)) (host w) (heap w) (observers w) (emitted w).
Definition on_host (f : Host.t -> Host.t) (w : World) : World :=
  mkWorld (scene w) (f (host w)) (heap w) (observers w) (emitted w).
Definition set_heap (v : list Force.t) (w : World) : World :=
  mkWorld (scene w) (host w) v (observers w) (emitted w).
Definition set_observers (v : list nat) (w : World) : World :=
  mkWorld (scene w) (host w) (heap w) v (emitted w).
Definition set_emitted (v : list (nat * nat)) (w : World) : World :=
  mkWorld (scene w) (host w) (heap w) (observers w) v.

(** What [this.x] reads. *)
Definition hit (w : World) : bool := Scene.hit (scene w).
Definition ball (w : World) : Ball.t := Scene.ball (scene w).
Definition forces (w : World) : list ref := Scene.forces (scene w).
Definition center (w : World) : Position.t := Scene.center (scene w).
Definition canvas (w : World) : Canvas.t := Host.canvas (host w).
(** The object a reference points to. *)
Definition deref (w : World) (force : ref) : Force.t := heap w !!! force.

(** ** The platform: [Math], the DOM, the frame scheduler *)

(** [Math.PI]: the double nearest to [PI], [0x1.921fb54442d18p+1], that is
    884279719003555 / 2^48 = 3.141592653589793116 (and [PI] is
    3.141592653589793238). *)
Definition Math_PI : R := 884279719003555 / 281474976710656.

(** [Math.atan2 y x]: the angle of the point [(x, y)], in [(-PI, PI]].
    The reals have one zero: where JavaScript tells [-0] from [0] and
    answers [-PI], the angle here is [PI], with the same sine and cosine. *)
Definition atan2 (y x : R) : R :=
  if Rlt_dec 0 x then atan (y / x)
  else if Rlt_dec x 0 then
    if Rle_dec 0 y then atan (y / x) + PI else atan (y / x) - PI
  else if Rlt_dec 0 y then PI / 2
  else if Rlt_dec y 0 then - (PI / 2)
  else 0.

(** [target.addEventListener(type, callback)]: a listener already there is
    not added again. *)
Definition addEventListener (l : Listener) (w : World) : World :=
  on_host (fun h =>
    if decide (l ∈ Host.listeners h) then h
    else HostSet.listeners (Host.listeners h ++ [l]) h) w.

Definition removeEventListener (l : Listener) (w : World) : World :=
  on_host (fun h =>
    HostSet.listeners (filter (fun l' => l' <> l) (Host.listeners h)) h) w.

(** [requestAnimationFrame(this.tick)]: the handle it returns, and the world
    with the callback pending. *)
Definition requestAnimationFrame (w : World) : nat * World :=
  let handle := Host.nextHandle (host w) in
  (handle,
   on_host (fun h =>
     HostSet.nextHandle (S handle)
       (HostSet.frames (Host.frames h ++ [handle]) h)) w).

(** [cancelAnimationFrame(handle)]: a handle that is not pending is ignored. *)
Definition cancelAnimationFrame (handle : nat) (w : World) : World :=
  on_host (fun h =>
    HostSet.frames (filter (fun h' => h' <> handle) (Host.frames h)) h) w.

Definition alert (message : string) (w : World) : World :=
  on_host (fun h => HostSet.alerts (Host.alerts h ++ [message]) h) w.

(** [goto(route)] of [$app/navigation]; its promise is rejected, if ever, in
    a later turn of the event loop. *)
Definition goto (route : Route) (w : World) : World :=
  on_host (fun h => HostSet.navigations (Host.navigations h ++ [route]) h) w.

(** ** The helper modules the scene imports

    [./distance], [./distance/squared], [./normalize/point],
    [./normalize/shape], [./collision], [./split/hypotenuse], [./clamp],
    [./transform/resize] and [$lib/event/dispatcher] are not among the
    sources: each is written after the specification's description of it. *)

(** Modelled from the spec: [./distance] is missing; the distance between
    two points. *)
Definition distance (a b : Position.t) : R :=
  sqrt ((Position.x b - Position.x a) ^ 2 + (Position.y b - Position.y a) ^ 2).

(** Modelled from the spec: [./distance/squared] is missing; the square of
    [distance], whose root the tick takes. *)
Definition distanceSquared (a b : Position.t) : R :=
  (Position.x b - Position.x a) ^ 2 + (Position.y b - Position.y a) ^ 2.

(** Modelled from the spec: [./normalize/point] is missing;
    [screen.x = surface.width/2 + world.x + center.x],
    [screen.y = surface.height/2 - world.y - center.y]. *)
Definition normalizePoint (p : Position.t) (canvas : Canvas.t)
    (center : Position.t) : Position.t :=
  Position.mk (Canvas.width canvas / 2 + Position.x p + Position.x center)
              (Canvas.height canvas / 2 - Position.y p - Position.y center).

(** Modelled from the spec: [./normalize/shape] is missing; the same map on
    the corner of a wall, whose size is kept. *)
Definition normalizeShape (wall : Wall.t) (canvas : Canvas.t)
    (center : Position.t) : Wall.t :=
  let corner :=
    normalizePoint (Position.mk (Wall.x wall) (Wall.y wall)) canvas center in
  Wall.mk (Position.x corner) (Position.y corner)
          (Wall.width wall) (Wall.height wall).

(** Modelled from the spec: [./clamp] is missing; [clamp(min, max, value)]
    brings [value] into the range from [min] to [max]. *)
Definition clamp (min max value : R) : R := Rmax min (Rmin max value).

(** Modelled from the spec: [./collision] is missing; the circle's center is
    clamped to the rectangle's bounds to find the nearest point of the
    rectangle, and when that point is no farther than the radius the angle
    from it to the center is returned. *)
Definition collision (circle : Circle.t) (rectangle : Wall.t) : option R :=
  let nearest :=
    Position.mk
      (clamp (Wall.x rectangle) (Wall.x rectangle + Wall.width rectangle)
             (Circle.x circle))
      (clamp (Wall.y rectangle) (Wall.y rectangle + Wall.height rectangle)
             (Circle.y circle)) in
  if decide (distance (Circle.position circle) nearest <= Circle.radius circle)
  then Some (atan2 (Circle.y circle - Position.y nearest)
                   (Circle.x circle - Position.x nearest))
  else None.

(** Modelled from the spec: [./split/hypotenuse] is missing; the vector of
    the given magnitude pointing from the first point toward the second,
    [dx/distance * magnitude] and [dy/distance * magnitude]. *)
Definition splitHypotenuse (a b : Position.t) (distance magnitude : R)
    : Position.t :=
  Position.mk ((Position.x b - Position.x a) / distance * magnitude)
              ((Position.y b - Position.y a) / distance * magnitude).

(** Modelled from the spec: [./transform/resize] is missing; it refits the
    canvas, to the size the window has at that moment. *)
Definition resize (width height : R) (w : World) : World :=
  on_host (fun h =>
    HostSet.canvas (Canvas.mk width height (Canvas.cursor (Host.canvas h))) h) w.

(** Modelled from the spec: [$lib/event/dispatcher] is missing;
    [dispatchEvent('forces', attractive, repulsive)] reports the two counts
    to the registered observers. *)
Definition dispatchEvent (counts : nat * nat) (w : World) : World :=
  set_emitted (emitted w ++ [counts]) w.

(** Modelled from the spec: [addEventListener] of the missing dispatcher
    registers an observer. *)
Definition addObserver (observer : nat) (w : World) : World :=
  set_observers (observers w ++ [observer]) w.

(** Modelled from the spec: [removeAllEventListeners] of the missing
    dispatcher drops every observer. *)
Definition removeAllEventListeners (w : World) : World := set_observers [] w.

Definition setCursor (cursor : string) (w : World) : World :=
  on_host (fun h =>
    HostSet.canvas
      (Canvas.mk (Canvas.width (Host.canvas h)) (Canvas.height (Host.canvas h))
                 cursor) h) w.

(** ** The methods of [Scene] *)

Definition MAX_DISTANCE : R := 800.
Definition MAX_VELOCITY : R := 500.

Section Engine.

(** [./force/radius] and [$lib/level/levels.json] are not among the sources:
    the radius of a force and the number of levels are parameters. *)
Variable FORCE_RADIUS : R.
Variable levels_length : Z.

(** The [mouse] each pointer handler computes from its event. *)
Definition pointer (w : World) (e : MouseEvent) : Position.t :=
  let scale := Host.devicePixelRatio (host w) in
  Position.mk (IZR (Zfloor (offsetX e * scale)))
              (IZR (Zfloor (offsetY e * scale))).

Definition mouseOnForce (w : World) (mouse : Position.t) (force : ref) : bool :=
  bool_decide
    (distance (normalizePoint (Force.position (deref w force)) (canvas w)
                              (center w)) mouse
     <= FORCE_RADIUS).

Definition updateCursor (mouse : Position.t) (w : World) : World :=
  setCursor (if existsb (mouseOnForce w mouse) (forces w) then "move" else "") w.

(** The [reduce] of [dispatchForces]: slot 0 counts the forces of direction
    1, slot 1 the others. *)
Definition countForces (w : World) : nat * nat :=
  fold_left
    (fun remaining force =>
       if decide (Force.direction (deref w force) = 1%Z)
       then (S (fst remaining), snd remaining)
       else (fst remaining, S (snd remaining)))
    (forces w) (0%nat, 0%nat).

Definition dispatchForces (w : World) : World :=
  dispatchEvent (countForces w) w.

(** [new] objects: they are put at the end of the heap, and the references
    to them are returned in order. *)
Definition allocate (objects : list Force.t) (w : World) : list ref * World :=
  (seq (length (heap w)) (length objects), set_heap (heap w ++ objects) w).

Definition reset (w : World) : World :=
  let w := on_scene (SceneSet.hit false) w in
  let authored := Level.ball (Scene.level (scene w)) in
  on_scene
    (SceneSet.ball
       (Ball.mk (Circle.x authored) (Circle.y authored) (Circle.radius authored)
                0 0)) w.

Definition clear (w : World) : World :=
  let w := reset w in
  let level := Scene.level (scene w) in
  let '(created, w) :=
    allocate
      (map (fun force => Force.mk (Position.x force) (Position.y force) 1)
           (Level.defaultGravity level)
       ++ map (fun force => Force.mk (Position.x force) (Position.y force) 1)
              (Level.defaultAntigravity level)) w in
  let w := on_scene (SceneSet.forces created) w in
  dispatchForces w.

Definition addForce (p : Position.t) (direction : Z) (w : World) : World :=
  let scale := Host.devicePixelRatio (host w) in
  let '(created, w') :=
    allocate
      [Force.mk
         (Position.x p * scale + FORCE_RADIUS - Canvas.width (canvas w) / 2
          - Position.x (center w))
         (- Position.y p * scale - FORCE_RADIUS + Canvas.height (canvas w) / 2
          - Position.y (center w))
         direction] w in
  let w := on_scene (SceneSet.forces (forces w' ++ created)) w' in
  let w := dispatchForces w in
  setCursor "move" w.

Definition destroy (w : World) : World :=
  let w := removeAllEventListeners w in
  let w := removeEventListener (Window, "resize", OnResize) w in
  let w := removeEventListener (Document, "keydown", OnKey) w in
  let w := removeEventListener (CanvasElement, "mousedown", OnDown) w in
  let w := removeEventListener (CanvasElement, "mousemove", OnMove) w in
  let w := removeEventListener (CanvasElement, "mouseup", OnUp) w in
  match Scene.frame (scene w) with
  | Some handle =>
      if decide (handle = 0%nat) then w else cancelAnimationFrame handle w
  | None => w
  end.

Definition key (k : string) (w : World) : World :=
  if decide (k = " ") then reset w else w.

(** [event.preventDefault()]: nothing of the scene changes. *)
Definition rightClick (w : World) : World := w.

(** [this.mouseCurrent?.force] *)
Definition gestureForce (w : World) : option ref :=
  Scene.mouseCurrent (scene w) ≫= MouseCurrent.force.

(** [array.indexOf(x)]: the first index that holds [x]; [None] is [-1]. *)
Fixpoint indexOf (x : ref) (l : list ref) : option nat :=
  match l with
  | [] => None
  | y :: l' => if decide (y = x) then Some 0%nat else S <$> indexOf x l'
  end.

Definition down (e : MouseEvent) (w : World) : World :=
  let mouse := pointer w e in
  let w :=
    on_scene
      (SceneSet.mouseStart
         (Some (MouseStart.mk (Position.x mouse) (Position.y mouse) (button e))))
      w in
  let force := find (mouseOnForce w mouse) (forces w) in
  on_scene
    (SceneSet.mouseCurrent
       (Some (MouseCurrent.mk (Position.x mouse) (Position.y mouse) force))) w.

(** The two branches of [move] under a held primary button. *)
Definition drag (mouse : Position.t) (current : MouseCurrent.t) (w : World)
    : World :=
  match MouseCurrent.force current with
  | Some force =>
      (* Dragging force *)
      let f := deref w force in
      set_heap
        (<[force :=
             Force.mk
               (Force.x f + (Position.x mouse - MouseCurrent.x current))
               (Force.y f - (Position.y mouse - MouseCurrent.y current))
               (Force.direction f)]> (heap w)) w
  | None =>
      (* Panning *)
      on_scene
        (SceneSet.center
           (Position.mk
              (Position.x (center w)
               + (Position.x mouse - MouseCurrent.x current))
              (Position.y (center w)
               - (Position.y mouse - MouseCurrent.y current)))) w
  end.

Definition move (e : MouseEvent) (w : World) : World :=
  let mouse := pointer w e in
  let w :=
    match Scene.mouseStart (scene w), Scene.mouseCurrent (scene w) with
    | Some start, Some current =>
        if decide (MouseStart.button start = 0%Z) then
          let w := drag mouse current w in
          on_scene
            (SceneSet.mouseCurrent
               (Some (MouseCurrent.mk (Position.x mouse) (Position.y mouse)
                                      (MouseCurrent.force current)))) w
        else w
    | _, _ => w
    end in
  updateCursor mouse w.

(** The first branch of [up]: hit the ball. *)
Definition shoot (mouse : Position.t) (w : World) : World :=
  let w := on_scene (SceneSet.hit true) w in
  let normalizedBall := normalizePoint (Ball.position (ball w)) (canvas w)
                                       (center w) in
  let distanceFactor := distance mouse normalizedBall in
  let v :=
    splitHypotenuse mouse normalizedBall distanceFactor
      (Rmin (distanceFactor / MAX_DISTANCE) 1 * MAX_VELOCITY) in
  on_scene
    (SceneSet.ball
       (Ball.mk (Ball.x (ball w)) (Ball.y (ball w)) (Ball.radius (ball w))
                (Position.x v) (Position.y v))) w.

(** The second branch of [up]: remove the force of the gesture. *)
Definition removeForce (mouse : Position.t) (force : ref) (w : World) : World :=
  match indexOf force (forces w) with
  | Some index =>
      let w := on_scene (SceneSet.forces (delete index (forces w))) w in
      let w := dispatchForces w in
      updateCursor mouse w
  | None => w
  end.

Definition up (e : MouseEvent) (w : World) : World :=
  if hit w then w
  else
    match Scene.mouseStart (scene w) with
    | None => w
    | Some start =>
        let mouse := pointer w e in
        let w :=
          if decide (MouseStart.button start = 0%Z
                     /\ Position.x mouse = MouseStart.x start
                     /\ Position.y mouse = MouseStart.y start)
          then shoot mouse w
          else
            match
              (if decide (MouseStart.button start = 2%Z) then gestureForce w
               else None)
            with
            | Some force =>
                if mouseOnForce w mouse force then removeForce mouse force w
                else w
            | None => w
            end in
        on_scene (SceneSet.mouseCurrent None)
          (on_scene (SceneSet.mouseStart None) w)
    end.

(** The win test of [tick]. *)
Definition won (w : World) : bool :=
  bool_decide
    (distance
       (normalizePoint (Ball.position (ball w)) (canvas w) (center w))
       (normalizePoint (Circle.position (Scene.hole (scene w))) (canvas w)
                       (center w))
     <= Circle.radius (Scene.hole (scene w)) - Ball.radius (ball w)).

(** The response to a collision at [angle]. *)
Definition bounce (angle : R) (b : Ball.t) : Ball.t :=
  let v := atan2 (- Ball.vy b) (Ball.vx b) in
  let bounceAngle := 2 * angle - v + Math_PI in
  let speed := sqrt (Ball.vy b ^ 2 + Ball.vx b ^ 2) in
  Ball.mk (Ball.x b) (Ball.y b) (Ball.radius b)
          (cos bounceAngle * speed) (- sin bounceAngle * speed).

(** One turn of the loop over the walls. *)
Definition collide (w : World) (b : Ball.t) (wall : Wall.t) : Ball.t :=
  let normalized := normalizePoint (Ball.position b) (canvas w) (center w) in
  match
    collision
      (Circle.mk (Position.x normalized) (Position.y normalized) (Ball.radius b))
      (normalizeShape wall (canvas w) (center w))
  with
  | Some angle => bounce angle b
  | None => b
  end.

(** What [splitHypotenuse] returns in the loop over the forces. *)
Definition acceleration (w : World) (b : Ball.t) (force : Force.t)
    : Position.t :=
  let rSquared :=
    distanceSquared
      (normalizePoint (Ball.position b) (canvas w) (center w))
      (normalizePoint (Force.position force) (canvas w) (center w)) in
  splitHypotenuse
    (normalizePoint (Force.position force) (canvas w) (center w))
    (normalizePoint (Ball.position b) (canvas w) (center w))
    (sqrt rSquared)
    (clamp (-5000) 5000 (IZR (Force.direction force) * 100000000 / rSquared)).

(** One turn of the loop over the forces. *)
Definition accelerate (delta : R) (w : World) (b : Ball.t) (force : ref)
    : Ball.t :=
  let a := acceleration w b (deref w force) in
  Ball.mk (Ball.x b) (Ball.y b) (Ball.radius b)
          (Ball.vx b + Position.x a * delta) (Ball.vy b + Position.y a * delta).

Definition integrate (delta : R) (b : Ball.t) : Ball.t :=
  Ball.mk (Ball.x b + Ball.vx b * delta) (Ball.y b - Ball.vy b * delta)
          (Ball.radius b) (Ball.vx b) (Ball.vy b).

(** [currentTime - (this.previousTime || currentTime)], the time in
    seconds. *)
Definition elapsed (previousTime : option R) (currentTime : R) : R :=
  currentTime
  - match previousTime with
    | Some previous => if decide (previous = 0) then currentTime else previous
    | None => currentTime
    end.

Definition tick (currentTime : R) (w : World) : World :=
  let w := on_scene (SceneSet.frame None) w in
  let currentTime := currentTime / 1000 in
  let delta := elapsed (Scene.previousTime (scene w)) currentTime in
  let w := on_scene (SceneSet.previousTime (Some currentTime)) w in
  if hit w && won w then
    let w := alert "Congratulations!" w in
    let lastLevel :=
      bool_decide (Level.id (Scene.level (scene w)) = levels_length) in
    goto (if lastLevel then LevelIndex
          else LevelPage (Level.id (Scene.level (scene w)) + 1)) w
    (* return *)
  else
    let w :=
      if hit w then
        let w :=
          on_scene
            (SceneSet.ball
               (fold_left (collide w) (Scene.walls (scene w)) (ball w))) w in
        on_scene
          (SceneSet.ball (fold_left (accelerate delta w) (forces w) (ball w))) w
      else w in
    let w := on_scene (SceneSet.ball (integrate delta (ball w))) w in
    let '(handle, w) := requestAnimationFrame w in
    on_scene (SceneSet.frame (Some handle)) w.

(** [new Scene(canvas, context, level)], in the host [environment], whose
    window has the given size.  The fields declared [undefined as never] hold
    a placeholder until the constructor assigns them; [hole], [stars] and
    [walls], which nothing reads before their assignment, start assigned. *)
Definition construct (environment : Host.t) (width height : R)
    (level : Level.t) : World :=
  let this :=
    Scene.mk None None (Position.mk 0 0) None None false []
             (Ball.mk 0 0 0 0 0) (Level.hole level) (Level.stars level)
             (Level.walls level) level in
  let w := mkWorld this environment [] [] [] in
  let w := clear w in
  let w := resize width height w in
  let w := addEventListener (Window, "resize", OnResize) w in
  let w := addEventListener (Document, "keydown", OnKey) w in
  let w := addEventListener (CanvasElement, "mousedown", OnDown) w in
  let w := addEventListener (CanvasElement, "mousemove", OnMove) w in
  let w := addEventListener (CanvasElement, "mouseup", OnUp) w in
  let w := addEventListener (CanvasElement, "contextmenu", OnRightClick) w in
  let '(handle, w) := requestAnimationFrame w in
  on_scene (SceneSet.frame (Some handle)) w.

(** ** The event loop

    The host runs a pending frame callback, delivers an event to a listener
    that is registered, or a collaborator calls a public method. *)

Inductive step (w : World) : World -> Prop :=
| step_frame handle time :
    handle ∈ Host.frames (host w) ->
    step w (tick time (cancelAnimationFrame handle w))
| step_resize width height :
    (Window, "resize", OnResize) ∈ Host.listeners (host w) ->
    step w (resize width height w)
| step_key k :
    (Document, "keydown", OnKey) ∈ Host.listeners (host w) ->
    step w (key k w)
| step_down e :
    (CanvasElement, "mousedown", OnDown) ∈ Host.listeners (host w) ->
    step w (down e w)
| step_move e :
    (CanvasElement, "mousemove", OnMove) ∈ Host.listeners (host w) ->
    step w (move e w)
| step_up e :
    (CanvasElement, "mouseup", OnUp) ∈ Host.listeners (host w) ->
    step w (up e w)
| step_rightClick :
    (CanvasElement, "contextmenu", OnRightClick) ∈ Host.listeners (host w) ->
    step w (rightClick w)
| step_rejected route message :
    route ∈ Host.navigations (host w) ->
    step w (alert message w)
| step_addObserver observer : step w (addObserver observer w)
| step_reset : step w (reset w)
| step_clear : step w (clear w)
| step_addForce p direction :
    direction = 1%Z \/ direction = (-1)%Z ->
    step w (addForce p direction w)
| step_destroy : step w (destroy w).

(** A host in which no scene lives yet. *)
Definition vacant (environment : Host.t) : Prop :=
  Host.listeners environment = []
  /\ Host.frames environment = []
  /\ (0 < Host.nextHandle environment)%nat.

Inductive reachable : World -> Prop :=
| reachable_construct environment width height level :
    vacant environment ->
    reachable (construct environment width height level)
| reachable_step w w' : reachable w -> step w w' -> reachable w'.

End Engine.

(** The worlds the event loop can lead to from a given one. *)
Inductive reaches (FORCE_RADIUS : R) (levels_length : Z) (w : World)
    : World -> Prop :=
| reaches_here : reaches FORCE_RADIUS levels_length w w
| reaches_step w' w'' :
    reaches FORCE_RADIUS levels_length w w' ->
    step FORCE_RADIUS levels_length w' w'' ->
    reaches FORCE_RADIUS levels_length w w''.


(** In setup mode the ball has no velocity. *)
Definition at_rest (w : World) : Prop :=
  hit w = false -> Ball.vx (ball w) = 0 /\ Ball.vy (ball w) = 0.

(** The frame the scene remembers is the only one that can be pending, and
    a handle is never 0. *)
Definition frame_tracked (w : World) : Prop :=
  (forall handle, handle ∈ Host.frames (host w) ->
                  Scene.frame (scene w) = Some handle)
  /\ (forall handle, Scene.frame (scene w) = Some handle -> handle <> 0%nat)
  /\ (0 < Host.nextHandle (host w))%nat.

(** What the scheduler knows of the scene. *)
Definition schedule (w : World) : list nat * option nat * nat :=
  (Host.frames (host w), Scene.frame (scene w), Host.nextHandle (host w)).

(** The listeners [destroy] takes away. *)
Definition unregistered : list Listener :=
  [(Window, "resize", OnResize); (Document, "keydown", OnKey);
   (CanvasElement, "mousedown", OnDown); (CanvasElement, "mousemove", OnMove);
   (CanvasElement, "mouseup", OnUp)].

(** The references the scene holds point into the heap, and the collection
    holds no force twice. *)
Definition refs_valid (w : World) : Prop :=
  NoDup (forces w)
  /\ Forall (fun force : ref => (force < length (heap w))%nat) (forces w)
  /\ (forall force, gestureForce w = Some force ->
                    (force < length (heap w))%nat).

(** The forces as the scene sees them. *)
Definition objects (w : World) : list ref * list Force.t * option ref :=
  (forces w, heap w, gestureForce w).

(** ** The first [Scene] of the file

    [index.ts] starts with an earlier version of the class: no panning, no
    stars, no images, no event dispatcher, a level given as arrays, and one
    fixed force.  Its helpers [./normalize/circle] and
    [./normalize/rectangle] are not among the sources and nothing describes
    them: they are parameters. *)

Module Legacy.

Definition FORCE_RADIUS : R := 30.

(** [level.ball] and [level.hole] are arrays [[x, y, radius]], a wall is an
    array [[x, y, width, height]]. *)
Record Level := mkLevel {
  id : Z;
  level_ball : R * R * R;
  level_hole : R * R * R;
  level_walls : list (R * R * R * R)
}.

(** [mouseCurrent], whose force is never [null] here. *)
Record Current := mkCurrent { cx : R; cy : R; force : ref }.

Record Scene := mkScene {
  previousTime : option R;
  frame : option nat;
  mouseStart : option Position.t;
  mouseCurrent : option Current;
  hit : bool;
  ball : Ball.t;
  hole : Circle.t;
  walls : list Wall.t;
  forces : list ref;
  level : Level
}.

Record World := mkWorld {
  scene : Scene;
  host : Host.t;
  heap : list Force.t
}.

Definition on_scene (f : Scene -> Scene) (w : World) : World :=
  mkWorld (f (scene w)) (host w) (heap w).
Definition on_host (f : Host.t -> Host.t) (w : World) : World :=
  mkWorld (scene w) (f (host w)) (heap w).
Definition set_heap (v : list Force.t) (w : World) : World :=
  mkWorld (scene w) (host w) v.

Definition set_previousTime (v : option R) (s : Scene) : Scene :=
  mkScene v (frame s) (mouseStart s) (mouseCurrent s) (hit s) (ball s) (hole s)
          (walls s) (forces s) (level s).
Definition set_frame (v : option nat) (s : Scene) : Scene :=
  mkScene (previousTime s) v (mouseStart s) (mouseCurrent s) (hit s) (ball s)
          (hole s) (walls s) (forces s) (level s).
Definition set_mouseStart (v : option Position.t) (s : Scene) : Scene :=
  mkScene (previousTime s) (frame s) v (mouseCurrent s) (hit s) (ball s)
          (hole s) (walls s) (forces s) (level s).
Definition set_mouseCurrent (v : option Current) (s : Scene) : Scene :=
  mkScene (previousTime s) (frame s) (mouseStart s) v (hit s) (ball s) (hole s)
          (walls s) (forces s) (level s).
Definition set_hit (v : bool) (s : Scene) : Scene :=
  mkScene (previousTime s) (frame s) (mouseStart s) (mouseCurrent s) v (ball s)
          (hole s) (walls s) (forces s) (level s).
Definition set_ball (v : Ball.t) (s : Scene) : Scene :=
  mkScene (previousTime s) (frame s) (mouseStart s) (mouseCurrent s) (hit s) v
          (hole s) (walls s) (forces s) (level s).
Definition set_forces (v : list ref) (s : Scene) : Scene :=
  mkScene (previousTime s) (frame s) (mouseStart s) (mouseCurrent s) (hit s)
          (ball s) (hole s) (walls s) v (level s).

(** The host calls of the first scene, on its own world. *)
Definition addEventListener (l : Listener) (w : World) : World :=
  on_host (fun h =>
    if decide (l ∈ Host.listeners h) then h
    else HostSet.listeners (Host.listeners h ++ [l]) h) w.

Definition removeEventListener (l : Listener) (w : World) : World :=
  on_host (fun h =>
    HostSet.listeners (filter (fun l' => l' <> l) (Host.listeners h)) h) w.

Definition requestAnimationFrame (w : World) : nat * World :=
  let handle := Host.nextHandle (host w) in
  (handle,
   on_host (fun h =>
     HostSet.nextHandle (S handle)
       (HostSet.frames (Host.frames h ++ [handle]) h)) w).

Definition cancelAnimationFrame (handle : nat) (w : World) : World :=
  on_host (fun h =>
    HostSet.frames (filter (fun h' => h' <> handle) (Host.frames h)) h) w.

Definition alert (message : string) (w : World) : World :=
  on_host (fun h => HostSet.alerts (Host.alerts h ++ [message]) h) w.

Definition goto (route : Route) (w : World) : World :=
  on_host (fun h => HostSet.navigations (Host.navigations h ++ [route]) h) w.

Definition setCursor (cursor : string) (w : World) : World :=
  on_host (fun h =>
    HostSet.canvas
      (Canvas.mk (Canvas.width (Host.canvas h)) (Canvas.height (Host.canvas h))
                 cursor) h) w.

(** Modelled from the spec: [./transform/resize] is missing; it refits the
    canvas, to the size the window has at that moment. *)
Definition resize (width height : R) (w : World) : World :=
  on_host (fun h =>
    HostSet.canvas (Canvas.mk width height (Canvas.cursor (Host.canvas h))) h) w.

Definition deref (w : World) (r : ref) : Force.t := heap w !!! r.

Section Engine.

Variable normalizeCircle : Position.t -> Canvas.t -> Position.t.
Variable normalizeRectangle : Wall.t -> Canvas.t -> Wall.t.
Variable levels_length : Z.

Definition pointer (w : World) (e : MouseEvent) : Position.t :=
  let scale := Host.devicePixelRatio (host w) in
  Position.mk (IZR (Zfloor (offsetX e * scale)))
              (IZR (Zfloor (offsetY e * scale))).

(** The test [down] and [move] make of each force. *)
Definition under (w : World) (mouse : Position.t) (r : ref) : bool :=
  bool_decide
    (distance (normalizeCircle (Force.position (deref w r))
                               (Host.canvas (host w))) mouse
     <= FORCE_RADIUS).

Definition reset (w : World) : World :=
  let w := on_scene (set_hit false) w in
  let '(x, y, radius) := level_ball (level (scene w)) in
  on_scene (set_ball (Ball.mk x y radius 0 0)) w.

Definition clear (w : World) : World :=
  let w := reset w in
  let w' := set_heap (heap w ++ [Force.mk (-100) 0 1]) w in
  on_scene (set_forces [length (heap w)]) w'.

Definition bounce_walls (w : World) (b : Ball.t) (wall : Wall.t) : Ball.t :=
  let normalized := normalizeCircle (Ball.position b) (Host.canvas (host w)) in
  match
    collision
      (Circle.mk (Position.x normalized) (Position.y normalized) (Ball.radius b))
      (normalizeRectangle wall (Host.canvas (host w)))
  with
  | Some angle => bounce angle b
  | None => b
  end.

Definition pull (delta : R) (w : World) (b : Ball.t) (r : ref) : Ball.t :=
  let f := deref w r in
  let rSquared :=
    distanceSquared
      (normalizeCircle (Ball.position b) (Host.canvas (host w)))
      (normalizeCircle (Force.position f) (Host.canvas (host w))) in
  let a :=
    splitHypotenuse
      (normalizeCircle (Force.position f) (Host.canvas (host w)))
      (normalizeCircle (Ball.position b) (Host.canvas (host w)))
      (sqrt rSquared)
      (clamp (-5000) 5000 (IZR (Force.direction f) * 100000000 / rSquared)) in
  Ball.mk (Ball.x b) (Ball.y b) (Ball.radius b)
          (Ball.vx b + Position.x a * delta) (Ball.vy b + Position.y a * delta).

Definition won (w : World) : bool :=
  bool_decide
    (distance
       (normalizeCircle (Ball.position (ball (scene w))) (Host.canvas (host w)))
       (normalizeCircle (Circle.position (hole (scene w)))
                        (Host.canvas (host w)))
     <= Circle.radius (hole (scene w)) - Ball.radius (ball (scene w))).

Definition tick (currentTime : R) (w : World) : World :=
  let w := on_scene (set_frame None) w in
  let currentTime := currentTime / 1000 in
  let delta := elapsed (previousTime (scene w)) currentTime in
  let w := on_scene (set_previousTime (Some currentTime)) w in
  if hit (scene w) && won w then
    let w := alert "Congratulations!" w in
    let lastLevel := bool_decide (id (level (scene w)) = levels_length) in
    goto (if lastLevel then LevelIndex
          else LevelPage (id (level (scene w)) + 1)) w
    (* return *)
  else
    let w :=
      if hit (scene w) then
        let w :=
          on_scene
            (set_ball
               (fold_left (bounce_walls w) (walls (scene w)) (ball (scene w))))
            w in
        on_scene
          (set_ball (fold_left (pull delta w) (forces (scene w))
                               (ball (scene w)))) w
      else w in
    let w := on_scene (set_ball (integrate delta (ball (scene w)))) w in
    let '(handle, w) := requestAnimationFrame w in
    on_scene (set_frame (Some handle)) w.

Definition down (e : MouseEvent) (w : World) : World :=
  if hit (scene w) then w
  else
    let mouse := pointer w e in
    let w := on_scene (set_mouseStart (Some mouse)) w in
    match find (under w mouse) (forces (scene w)) with
    | Some r =>
        on_scene
          (set_mouseCurrent
             (Some (mkCurrent (Position.x mouse) (Position.y mouse) r))) w
    | None => w
    end.

Definition move (e : MouseEvent) (w : World) : World :=
  if hit (scene w) then w
  else
    let mouse := pointer w e in
    let w :=
      match mouseCurrent (scene w) with
      | Some current =>
          let f := deref w (force current) in
          let w :=
            set_heap
              (<[force current :=
                   Force.mk (Force.x f + (Position.x mouse - cx current))
                            (Force.y f - (Position.y mouse - cy current))
                            (Force.direction f)]> (heap w)) w in
          on_scene
            (set_mouseCurrent
               (Some (mkCurrent (Position.x mouse) (Position.y mouse)
                                (force current)))) w
      | None => w
      end in
    setCursor (if existsb (under w mouse) (forces (scene w)) then "move"
               else "") w.

Definition up (e : MouseEvent) (w : World) : World :=
  if hit (scene w) then w
  else
    match mouseStart (scene w) with
    | None => w
    | Some start =>
        let mouse := pointer w e in
        let w :=
          if decide (Position.x mouse = Position.x start
                     /\ Position.y mouse = Position.y start)
          then
            let w := on_scene (set_hit true) w in
            let normalizedBall :=
              normalizeCircle (Ball.position (ball (scene w)))
                              (Host.canvas (host w)) in
            let distanceFactor := distance mouse normalizedBall in
            let v :=
              splitHypotenuse mouse normalizedBall distanceFactor
                (Rmin (distanceFactor / MAX_DISTANCE) 1 * MAX_VELOCITY) in
            on_scene
              (set_ball
                 (Ball.mk (Ball.x (ball (scene w))) (Ball.y (ball (scene w)))
                          (Ball.radius (ball (scene w)))
                          (Position.x v) (Position.y v))) w
          else
            match mouseCurrent (scene w) with
            | Some _ => on_scene (set_mouseCurrent None) w
            | None => w
            end in
        on_scene (set_mouseStart None) w
    end.

Definition key (k : string) (w : World) : World :=
  if decide (k = " ") then reset w else w.

Definition destroy (w : World) : World :=
  let w := removeEventListener (Window, "resize", OnResize) w in
  let w := removeEventListener (Document, "keydown", OnKey) w in
  let w := removeEventListener (CanvasElement, "mousedown", OnDown) w in
  let w := removeEventListener (CanvasElement, "mousemove", OnMove) w in
  let w := removeEventListener (CanvasElement, "mouseup", OnUp) w in
  match frame (scene w) with
  | Some handle =>
      if decide (handle = 0%nat) then w else cancelAnimationFrame handle w
  | None => w
  end.

(** [new Scene(canvas, context, level)] of the first scene; as for the
    second one, [hole] and [walls] start assigned. *)
Definition construct (environment : Host.t) (width height : R)
    (lvl : Level) : World :=
  let '(hx, hy, hradius) := level_hole lvl in
  let this :=
    mkScene None None None None false (Ball.mk 0 0 0 0 0)
            (Circle.mk hx hy hradius)
            (map (fun wall : R * R * R * R =>
                    let '(x, y, width, height) := wall in
                    Wall.mk x y width height) (level_walls lvl))
            [] lvl in
  let w := mkWorld this environment [] in
  let w := clear w in
  let w := resize width height w in
  let w := addEventListener (Window, "resize", OnResize) w in
  let w := addEventListener (Document, "keydown", OnKey) w in
  let w := addEventListener (CanvasElement, "mousedown", OnDown) w in
  let w := addEventListener (CanvasElement, "mousemove", OnMove) w in
  let w := addEventListener (CanvasElement, "mouseup", OnUp) w in
  let '(handle, w) := requestAnimationFrame w in
  on_scene (set_frame (Some handle)) w.

End Engine.

End Legacy.

(** ** The publish overlay

    The script of the Svelte component ([src/unnamed/part_000]) that is
    shown on a win of a level being authored.  [publish] is an [async]
    function: it is written as the run of one call to its end, the results
    of its [await]s given as arguments; what other handlers do while it
    waits is not modelled.  [errorFromValue], [HttpError] and
    [replaceWithRounded] are not among the sources: the message of a thrown
    value is a parameter, an [HttpError] is kept as its two arguments, and
    the body of the request is kept as the name and the snapshot it is made
    from.  The body is built inside the [try], before [fetch] is called:
    [data()], [replaceWithRounded(2)] and [JSON.stringify] can throw, and
    then no request is sent.  [hideOverlay], [alert] and [console.error]
    are taken to return. *)

Module Publish.

Section Overlay.

(** What [data()] returns, and what can be thrown or a promise be rejected
    with. *)
Variable RawLevel : Type.
Variable Value : Type.

Inductive Thrown :=
| HttpError (status : Z) (text : string)
| Rejection (value : Value).

(** [errorFromValue(value).message] *)
Variable errorFromValue : Thrown -> string.

Record Request := mkRequest {
  url : string;
  method : string;
  contentType : string;
  bodyName : string;
  bodyData : RawLevel
}.

(** The component's variables and what it has done to the page. *)
Record Component := mkComponent {
  name : string;
  loading : bool;
  requests : list Request;
  overlaysHidden : nat;
  navigations : list string;
  alerts : list string;
  consoleErrors : list Thrown;
  resets : nat
}.

Definition set_loading (v : bool) (c : Component) : Component :=
  mkComponent (name c) v (requests c) (overlaysHidden c) (navigations c)
              (alerts c) (consoleErrors c) (resets c).

Definition fetch (r : Request) (c : Component) : Component :=
  mkComponent (name c) (loading c) (requests c ++ [r]) (overlaysHidden c)
              (navigations c) (alerts c) (consoleErrors c) (resets c).

Definition hideOverlay (c : Component) : Component :=
  mkComponent (name c) (loading c) (requests c) (S (overlaysHidden c))
              (navigations c) (alerts c) (consoleErrors c) (resets c).

Definition goto (route : string) (c : Component) : Component :=
  mkComponent (name c) (loading c) (requests c) (overlaysHidden c)
              (navigations c ++ [route]) (alerts c) (consoleErrors c)
              (resets c).

Definition alert (message : string) (c : Component) : Component :=
  mkComponent (name c) (loading c) (requests c) (overlaysHidden c)
              (navigations c) (alerts c ++ [message]) (consoleErrors c)
              (resets c).

Definition consoleError (value : Thrown) (c : Component) : Component :=
  mkComponent (name c) (loading c) (requests c) (overlaysHidden c)
              (navigations c) (alerts c) (consoleErrors c ++ [value])
              (resets c).

(** The [reset] the component was given. *)
Definition reset (c : Component) : Component :=
  mkComponent (name c) (loading c) (requests c) (overlaysHidden c)
              (navigations c) (alerts c) (consoleErrors c) (S (resets c)).

(** How the body of the request comes out: the snapshot [data()] returned,
    or what [data()], [replaceWithRounded(2)] or [JSON.stringify] threw. *)
Inductive BodyOutcome :=
| BodyBuilt (snapshot : RawLevel)
| BodyThrown (value : Thrown).

(** How the awaited promises settle. *)
Inductive TextOutcome :=
| TextResolved (text : string)
| TextRejected (value : Thrown).

Inductive FetchOutcome :=
| FetchRejected (value : Thrown)
| FetchResponse (ok : bool) (status : Z) (text : TextOutcome).

Inductive GotoOutcome :=
| GotoResolved
| GotoRejected (value : Thrown).

Definition restart (c : Component) : Component := hideOverlay (reset c).

(** Whether the response came and was ok. *)
Definition accepted (fetched : FetchOutcome) : bool :=
  match fetched with
  | FetchResponse true _ _ => true
  | _ => false
  end.

(** Whether the request was sent and its response came and was ok. *)
Definition published (body : BodyOutcome) (fetched : FetchOutcome) : bool :=
  match body with
  | BodyBuilt _ => accepted fetched
  | BodyThrown _ => false
  end.

(** The request of [publish] for a name and a body, if the body was built. *)
Definition sent (name : string) (body : BodyOutcome) : list Request :=
  match body with
  | BodyBuilt snapshot =>
      [mkRequest "/communityLevels" "POST" "application/json" name snapshot]
  | BodyThrown _ => []
  end.

(** The [catch] and the [finally] of [publish]. *)
Definition caught (value : Thrown) (c : Component) : Component :=
  alert (errorFromValue value) (consoleError value c).

Definition finally (c : Component) : Component := set_loading false c.

Definition publish (body : BodyOutcome) (fetched : FetchOutcome)
    (navigated : GotoOutcome) (c : Component) : Component :=
  if decide (name c = "") then finally c (* return *)
  else
    let c := set_loading true c in
    match body with
    | BodyThrown value => finally (caught value c)
    | BodyBuilt snapshot =>
        let c :=
          fetch (mkRequest "/communityLevels" "POST" "application/json"
                           (name c) snapshot) c in
        match fetched with
        | FetchRejected value => finally (caught value c)
        | FetchResponse ok status text =>
            if ok then
              let c := hideOverlay c in
              let c := goto "/levels/community" c in
              match navigated with
              | GotoResolved => finally c
              | GotoRejected value => finally (caught value c)
              end
            else
              match text with
              | TextResolved t => finally (caught (HttpError status t) c)
              | TextRejected value => finally (caught value c)
              end
        end
    end.

End Overlay.

End Publish.

(** ** Example worlds

    The radius of a force is 30, as in the first [Scene] of the file, and
    there are three levels. *)

(** A level with one attractive and one repulsive default force. *)
Definition demo_level : Level.t :=
  Level.mk 1 (Circle.mk 0 0 10) (Circle.mk 50 0 20) [] []
           [Position.mk (-60) 0] [Position.mk 0 0].

Definition demo_host : Host.t :=
  Host.mk (Canvas.mk 0 0 "") 1 [] [] 1 [] [].

(** The scene of [demo_level] on a canvas of 200 by 200. *)
Definition demo_world : World := construct demo_host 200 200 demo_level.

(** The same scene with the ball under way. *)
Definition demo_motion : World := on_scene (SceneSet.hit true) demo_world.

(** The ball of [demo_motion] moved into the hole. *)
Definition demo_holed : World :=
  on_scene (SceneSet.ball (Ball.mk 45 0 10 0 0)) demo_motion.


(** A primary-button press below the ball, away from the forces. *)
Definition demo_aim : MouseEvent := Build_MouseEvent 100 160 0.
Definition demo_aimed : World := down 30 demo_aim demo_world.
(** The release at the same place: the ball is shot. *)
Definition demo_shot : World := up 30 demo_aim demo_aimed.

(** A secondary-button press on the first force, and a release five pixels
    to the right of it. *)
Definition demo_press : MouseEvent := Build_MouseEvent 40 100 2.
Definition demo_release : MouseEvent := Build_MouseEvent 45 100 2.
Definition demo_pressed : World := down 30 demo_press demo_world.

(** A level without forces whose ball starts inside the hole, its scene, a
    primary press below the ball and the release that shoots. *)
Definition easy_level : Level.t :=
  Level.mk 3 (Circle.mk 0 0 10) (Circle.mk 0 0 20) [] [] [] [].
Definition easy_world : World := construct demo_host 200 200 easy_level.
Definition easy_aimed : World := down 30 demo_aim easy_world.
Definition easy_shot : World := up 30 demo_aim easy_aimed.


(** A level and a world of the first scene; the normalization taken for
    its parameter is the one of the second scene without the pan; a press on
    the fixed force, and a pointer position ten pixels to the right. *)
Definition legacy_level : Legacy.Level :=
  Legacy.mkLevel 1 (0, 0, 10) (50, 0, 20) [(5, 50, 20, 100)].
Definition legacy_normalize (p : Position.t) (canvas : Canvas.t) : Position.t :=
  normalizePoint p canvas (Position.mk 0 0).
Definition legacy_world : Legacy.World :=
  Legacy.construct demo_host 200 200 legacy_level.
Definition legacy_press : MouseEvent := Build_MouseEvent 0 100 0.
Definition legacy_hover : MouseEvent := Build_MouseEvent 10 100 0.

(** * Properties *)

(** ** Arithmetic *)


Lemma sqrt_le_iff (z r : R) : 0 <= z -> (sqrt z <= r <-> 0 <= r /\ z <= r ^ 2).
Proof.
  intros Hz. split.
  - intros Hle. pose proof (sqrt_pos z) as Hs. split; [lra|].
    rewrite <- (sqrt_sqrt z Hz). nra.
  - intros [Hr Hle]. rewrite <- (sqrt_pow2 r Hr). now apply sqrt_le_1_alt.
Qed.

Lemma distanceSquared_nonneg (a b : Position.t) : 0 <= distanceSquared a b.
Proof. apply Rplus_le_le_0_compat; apply pow2_ge_0. Qed.

Lemma distance_sqrt (a b : Position.t) :
  distance a b = sqrt (distanceSquared a b).
Proof. reflexivity. Qed.

Lemma distance_le_iff (a b : Position.t) (r : R) :
  distance a b <= r <-> 0 <= r /\ distanceSquared a b <= r ^ 2.
Proof. rewrite distance_sqrt. apply sqrt_le_iff, distanceSquared_nonneg. Qed.

(** Normalizing moves and mirrors the plane: distances are kept. *)
Lemma distance_normalized (a b : Position.t) (canvas : Canvas.t)
    (center : Position.t) :
  distance (normalizePoint a canvas center) (normalizePoint b canvas center)
  = distance a b.
Proof.
  unfold distance, normalizePoint. cbn [Position.x Position.y]. f_equal. ring.
Qed.

Lemma clamp_bounds (lo hi v : R) : lo <= hi -> lo <= clamp lo hi v <= hi.
Proof.
  intros Hle. unfold clamp, Rmax, Rmin.
  repeat destruct (Rle_dec _ _); lra.
Qed.

Lemma Zfloor_integer (z : Z) (scale : R) :
  scale = 1 -> IZR (Zfloor (IZR z * scale)) = IZR z.
Proof.
  intros ->. f_equal. apply Zfloor_eq. rewrite Rmult_1_r.
  generalize (IZR z). intros x. lra.
Qed.



Lemma distanceSquared_sym (a b : Position.t) :
  distanceSquared a b = distanceSquared b a.
Proof. unfold distanceSquared. ring. Qed.

(** The vector [splitHypotenuse] returns has the magnitude it was given,
    and points from the first point toward the second when the magnitude is
    positive. *)
Lemma splitHypotenuse_norm (a b : Position.t) (d m : R) :
  d <> 0 -> d ^ 2 = distanceSquared a b ->
  sqrt (Position.x (splitHypotenuse a b d m) ^ 2
        + Position.y (splitHypotenuse a b d m) ^ 2) = Rabs m.
Proof.
  intros Hd Hsq. unfold splitHypotenuse. cbn [Position.x Position.y].
  unfold distanceSquared in Hsq.
  replace (((Position.x b - Position.x a) / d * m) ^ 2
           + ((Position.y b - Position.y a) / d * m) ^ 2)
    with (((Position.x b - Position.x a) ^ 2 + (Position.y b - Position.y a) ^ 2)
          / d ^ 2 * Rsqr m) by (unfold Rsqr; field; exact Hd).
  rewrite <- Hsq.
  replace (d ^ 2 / d ^ 2 * Rsqr m) with (Rsqr m) by (field; exact Hd).
  apply sqrt_Rsqr_abs.
Qed.

Lemma filter_none {A : Type} (P : A -> Prop) `{!forall x, Decision (P x)}
    (l : list A) :
  (forall x, x ∈ l -> ~ P x) -> filter P l = [].
Proof.
  induction l as [|y l IH]; intros Hall; [reflexivity|].
  rewrite filter_cons_False by (apply Hall, list_elem_of_here).
  apply IH. intros x Hx. apply Hall. now apply list_elem_of_further.
Qed.

Section Properties.

Variable FORCE_RADIUS : R.
Variable levels_length : Z.

(** ** [reset] *)

(** C9: [reset] puts the ball back at the level's authored position and
    radius with zero velocity and returns to setup mode; the forces (the
    collection and the objects in it), the pan-center, the hole, the walls
    and the stars are as before, and no force-count notification is sent. *)
Theorem reset_only_ball (w : World) :
  ball (reset w)
  = Ball.mk (Circle.x (Level.ball (Scene.level (scene w))))
            (Circle.y (Level.ball (Scene.level (scene w))))
            (Circle.radius (Level.ball (Scene.level (scene w)))) 0 0
  /\ hit (reset w) = false
  /\ forces (reset w) = forces w
  /\ heap (reset w) = heap w
  /\ center (reset w) = center w
  /\ Scene.hole (scene (reset w)) = Scene.hole (scene w)
  /\ Scene.walls (scene (reset w)) = Scene.walls (scene w)
  /\ Scene.stars (scene (reset w)) = Scene.stars (scene w)
  /\ emitted (reset w) = emitted w.
Proof. repeat split. Qed.

(** ** [up] in motion mode *)

(** C7: a pointer-up that arrives while [hit] is true returns at once: the
    world is the one before, so the ball's velocity and position, the
    forces, the pan-center and the notifications sent are unchanged, and
    [mouseStart] and [mouseCurrent] are not cleared. *)
Theorem up_in_motion_returns (e : MouseEvent) (w : World) :
  hit w = true ->
  up FORCE_RADIUS e w = w
  /\ Ball.vx (ball (up FORCE_RADIUS e w)) = Ball.vx (ball w)
  /\ Ball.vy (ball (up FORCE_RADIUS e w)) = Ball.vy (ball w)
  /\ Ball.x (ball (up FORCE_RADIUS e w)) = Ball.x (ball w)
  /\ Ball.y (ball (up FORCE_RADIUS e w)) = Ball.y (ball w)
  /\ forces (up FORCE_RADIUS e w) = forces w
  /\ heap (up FORCE_RADIUS e w) = heap w
  /\ center (up FORCE_RADIUS e w) = center w
  /\ emitted (up FORCE_RADIUS e w) = emitted w
  /\ Scene.mouseStart (scene (up FORCE_RADIUS e w)) = Scene.mouseStart (scene w)
  /\ Scene.mouseCurrent (scene (up FORCE_RADIUS e w))
     = Scene.mouseCurrent (scene w).
Proof.
  intros Hhit.
  assert (Hup : up FORCE_RADIUS e w = w) by (unfold up; now rewrite Hhit).
  rewrite Hup. repeat split.
Qed.

(** ** [clear] *)

Lemma countForces_all_attractive (w : World) :
  Forall (fun force => Force.direction (deref w force) = 1%Z) (forces w) ->
  countForces w = (length (forces w), 0%nat).
Proof.
  unfold countForces.
  enough (G : forall l n,
             Forall (fun force => Force.direction (deref w force) = 1%Z) l ->
             fold_left
               (fun remaining force =>
                  if decide (Force.direction (deref w force) = 1%Z)
                  then (S (fst remaining), snd remaining)
                  else (fst remaining, S (snd remaining))) l (n, 0%nat)
             = ((n + length l)%nat, 0%nat)) by (intros H; exact (G _ 0%nat H)).
  induction l as [|r l IH]; intros n Hall; cbn [fold_left length].
  - f_equal; lia.
  - inversion Hall as [|? ? Hr Hl]; subst.
    destruct (decide _) as [_|Hne]; [|contradiction].
    cbn [fst snd]. rewrite (IH (S n) Hl). f_equal; lia.
Qed.

(** Reading back what was just put on the heap. *)
Lemma lookup_total_allocated (h created : list Force.t) :
  map (fun force : ref => (h ++ created) !!! force)
      (seq (length h) (length created))
  = created.
Proof.
  apply list_eq; intros i. rewrite list_lookup_fmap.
  destruct (decide (i < length created)%nat) as [Hi|Hi].
  - rewrite lookup_seq_lt by exact Hi. cbn.
    rewrite list_lookup_total_alt, lookup_app_r by lia.
    replace (length h + i - length h)%nat with i by lia.
    destruct (lookup_lt_is_Some_2 created i Hi) as [f Hf]. now rewrite Hf.
  - rewrite lookup_seq_ge by lia. cbn.
    symmetry. apply lookup_ge_None_2. lia.
Qed.

(** What [clear] does for every level: each default force, attractive or
    repulsive, is created with direction 1, and the notification counts them
    all as attractive. *)
Lemma clear_creates_attractive_only (w : World) :
  let level := Scene.level (scene w) in
  map (deref (clear w)) (forces (clear w))
  = map (fun p => Force.mk (Position.x p) (Position.y p) 1)
        (Level.defaultGravity level ++ Level.defaultAntigravity level)
  /\ emitted (clear w)
     = emitted w
       ++ [((length (Level.defaultGravity level)
             + length (Level.defaultAntigravity level))%nat, 0%nat)].
Proof.
  intros level.
  set (created :=
         map (fun p => Force.mk (Position.x p) (Position.y p) 1)
             (Level.defaultGravity level ++ Level.defaultAntigravity level)).
  set (w1 := on_scene (SceneSet.forces (seq (length (heap w)) (length created)))
               (set_heap (heap w ++ created) (reset w))).
  assert (Hclear : clear w = dispatchForces w1).
  { unfold clear, allocate, w1, created. cbn. fold level.
    now rewrite <- map_app. }
  assert (Hmap : map (deref w1) (forces w1) = created)
    by apply lookup_total_allocated.
  assert (Hall : Forall (fun force => Force.direction (deref w1 force) = 1%Z)
                        (forces w1)).
  { apply Forall_forall. intros r Hr.
    assert (Hin : deref w1 r ∈ created).
    { rewrite <- Hmap. apply list_elem_of_fmap. now exists r. }
    unfold created in Hin. apply list_elem_of_fmap in Hin.
    destruct Hin as (p & -> & _). reflexivity. }
  rewrite Hclear. split; [exact Hmap|].
  unfold dispatchForces, dispatchEvent. cbn [emitted set_emitted].
  rewrite (countForces_all_attractive _ Hall).
  change (emitted w1) with (emitted w). do 3 f_equal.
  change (forces w1) with (seq (length (heap w)) (length created)).
  unfold created. now rewrite length_seq, length_map, length_app.
Qed.

(** C1: on a level with one attractive and one repulsive default force,
    [clear] re-initializes the ball and replaces the forces with the two
    defaults, but the repulsive one is created with direction 1, not -1, and
    the notification reports 2 attractive and 0 repulsive forces, not 1 and
    1. *)
Theorem clear_antigravity_is_attractive :
  Scene.level (scene demo_world) = demo_level
  /\ Level.defaultGravity demo_level = [Position.mk (-60) 0]
  /\ Level.defaultAntigravity demo_level = [Position.mk 0 0]
  /\ ball (clear demo_world) = ball (reset demo_world)
  /\ map (deref (clear demo_world)) (forces (clear demo_world))
     = [Force.mk (-60) 0 1; Force.mk 0 0 1]
  /\ emitted (clear demo_world) = emitted demo_world ++ [(2%nat, 0%nat)].
Proof.
  split; [reflexivity|]. split; [reflexivity|]. split; [reflexivity|].
  split; [reflexivity|].
  exact (clear_creates_attractive_only demo_world).
Qed.

(** ** [tick] in motion mode *)

(** C3: in a tick of motion mode the level is declared won exactly when
    the distance [d] between the ball center and the hole center (measured
    on the normalized points, which is the distance in the world) is at most
    the hole's radius minus the ball's.  On a win the tick congratulates, sends [goto] to the next
    level, or to the level index when this level is the last, and returns:
    the ball is as it was (no collision, no force, no integration) and no
    frame is requested.  Otherwise nothing is announced, the ball goes
    through walls, forces and integration in that order, and the next
    frame is requested. *)
Theorem tick_win_iff_contained (time : R) (w : World) :
  hit w = true ->
  let d :=
    distance (normalizePoint (Ball.position (ball w)) (canvas w) (center w))
             (normalizePoint (Circle.position (Scene.hole (scene w)))
                             (canvas w) (center w)) in
  let id := Level.id (Scene.level (scene w)) in
  let delta := elapsed (Scene.previousTime (scene w)) (time / 1000) in
  let w' := tick levels_length time w in
  d = distance (Ball.position (ball w)) (Circle.position (Scene.hole (scene w)))
  /\
  (d <= Circle.radius (Scene.hole (scene w)) - Ball.radius (ball w) ->
   Host.alerts (host w') = Host.alerts (host w) ++ ["Congratulations!"]
   /\ Host.navigations (host w')
      = Host.navigations (host w)
        ++ [if decide (id = levels_length) then LevelIndex
            else LevelPage (id + 1)]
   /\ ball w' = ball w
   /\ Scene.frame (scene w') = None
   /\ Host.frames (host w') = Host.frames (host w)
   /\ Host.nextHandle (host w') = Host.nextHandle (host w))
  /\ (~ d <= Circle.radius (Scene.hole (scene w)) - Ball.radius (ball w) ->
      Host.alerts (host w') = Host.alerts (host w)
      /\ Host.navigations (host w') = Host.navigations (host w)
      /\ ball w'
         = integrate delta
             (fold_left (accelerate delta w) (forces w)
                (fold_left (collide w) (Scene.walls (scene w)) (ball w)))
      /\ Scene.frame (scene w') = Some (Host.nextHandle (host w))
      /\ Host.frames (host w')
         = Host.frames (host w) ++ [Host.nextHandle (host w)]).
Proof.
  intros Hhit d id delta w'. split; [apply distance_normalized|].
  subst w'. unfold tick.
  cbn [hit on_scene scene Scene.hit SceneSet.frame SceneSet.previousTime
       Scene.previousTime].
  fold (hit w). rewrite Hhit. cbn [andb].
  unfold won. cbn [ball canvas center on_scene scene host Scene.ball
                   Scene.hole SceneSet.frame SceneSet.previousTime].
  fold (ball w) (canvas w) (center w). fold d.
  split; intros Hd.
  - rewrite bool_decide_eq_true_2 by exact Hd.
    unfold id. cbn. rewrite bool_decide_decide.
    destruct (decide _); repeat split.
  - rewrite bool_decide_eq_false_2 by exact Hd.
    repeat split.
Qed.

(** ** Bounce *)








(** ** Forces *)

(** C5: at nonzero separation the acceleration a force adds to the
    ball's velocity in a tick (times [delta]) has magnitude
    [|clamp(-5000, 5000, direction * 100000000 / r^2)|], which is at most
    5000, whatever the direction of the force and however small the
    separation. *)
Theorem force_acceleration_clamped (delta : R) (w : World) (b : Ball.t)
    (force : ref) :
  let f := deref w force in
  let rSquared :=
    distanceSquared (normalizePoint (Ball.position b) (canvas w) (center w))
                    (normalizePoint (Force.position f) (canvas w) (center w)) in
  rSquared <> 0 ->
  let a := acceleration w b f in
  let magnitude := sqrt (Position.x a ^ 2 + Position.y a ^ 2) in
  Ball.vx (accelerate delta w b force) = Ball.vx b + Position.x a * delta
  /\ Ball.vy (accelerate delta w b force) = Ball.vy b + Position.y a * delta
  /\ magnitude
     = Rabs (clamp (-5000) 5000
               (IZR (Force.direction f) * 100000000 / rSquared))
  /\ magnitude <= 5000.
Proof.
  intros f rSquared Hr a magnitude.
  assert (Hpos : 0 <= rSquared) by apply distanceSquared_nonneg.
  assert (Hmag : magnitude
                 = Rabs (clamp (-5000) 5000
                           (IZR (Force.direction f) * 100000000 / rSquared))).
  { unfold magnitude, a, acceleration. fold rSquared.
    apply splitHypotenuse_norm.
    - intros H0. apply Hr. now apply sqrt_eq_0.
    - rewrite pow2_sqrt by exact Hpos. apply distanceSquared_sym. }
  split; [reflexivity|]. split; [reflexivity|]. split; [exact Hmag|].
  rewrite Hmag. apply Rabs_le.
  pose proof (clamp_bounds (-5000) 5000
                (IZR (Force.direction f) * 100000000 / rSquared)) as Hc.
  lra.
Qed.

(** ** The shot *)

Lemma up_shoots (e : MouseEvent) (w : World) (start : MouseStart.t) :
  hit w = false ->
  Scene.mouseStart (scene w) = Some start ->
  MouseStart.button start = 0%Z ->
  Position.x (pointer w e) = MouseStart.x start ->
  Position.y (pointer w e) = MouseStart.y start ->
  up FORCE_RADIUS e w
  = on_scene (SceneSet.mouseCurrent None)
      (on_scene (SceneSet.mouseStart None) (shoot (pointer w e) w)).
Proof.
  intros Hhit Hstart Hbutton Hx Hy. unfold up. rewrite Hhit, Hstart.
  destruct (decide _) as [_|Hno]; [reflexivity|].
  exfalso. apply Hno. auto.
Qed.

(** C6: a primary-button release at the press position, at nonzero
    distance [d] from the normalized ball center, starts motion mode and
    gives the ball a velocity of magnitude [min(d / 800, 1) * 500] pointing
    from the press point toward the ball; from [MAX_DISTANCE] on the speed
    is [MAX_VELOCITY], and at half of [MAX_DISTANCE] it is half of
    [MAX_VELOCITY]. *)
Theorem shot_velocity (e : MouseEvent) (w : World) (start : MouseStart.t) :
  hit w = false ->
  Scene.mouseStart (scene w) = Some start ->
  MouseStart.button start = 0%Z ->
  Position.x (pointer w e) = MouseStart.x start ->
  Position.y (pointer w e) = MouseStart.y start ->
  let normalizedBall :=
    normalizePoint (Ball.position (ball w)) (canvas w) (center w) in
  let d := distance (pointer w e) normalizedBall in
  d <> 0 ->
  let w' := up FORCE_RADIUS e w in
  let speed := sqrt (Ball.vx (ball w') ^ 2 + Ball.vy (ball w') ^ 2) in
  hit w' = true
  /\ speed = Rmin (d / 800) 1 * 500
  /\ (exists k, 0 < k
        /\ Ball.vx (ball w')
           = k * (Position.x normalizedBall - Position.x (pointer w e))
        /\ Ball.vy (ball w')
           = k * (Position.y normalizedBall - Position.y (pointer w e)))
  /\ (MAX_DISTANCE <= d -> speed = MAX_VELOCITY)
  /\ (d = MAX_DISTANCE / 2 -> speed = MAX_VELOCITY / 2).
Proof.
  intros Hhit Hstart Hbutton Hx Hy normalizedBall d Hd w' speed.
  assert (Hw' : w' = on_scene (SceneSet.mouseCurrent None)
                       (on_scene (SceneSet.mouseStart None)
                                 (shoot (pointer w e) w)))
    by (now apply up_shoots with start).
  assert (Hdpos : 0 < d).
  { pose proof (sqrt_pos (distanceSquared (pointer w e) normalizedBall)) as H.
    change (0 <= d) in H.
    destruct H as [H|H]; [exact H | now elim Hd]. }
  assert (Hmin : 0 < Rmin (d / 800) 1).
  { unfold Rmin. destruct (Rle_dec _ _); [|lra].
    apply Rdiv_lt_0_compat; lra. }
  assert (Hball : ball w'
                 = Ball.mk (Ball.x (ball w)) (Ball.y (ball w))
                     (Ball.radius (ball w))
                     (Position.x (splitHypotenuse (pointer w e) normalizedBall
                                    d (Rmin (d / 800) 1 * 500)))
                     (Position.y (splitHypotenuse (pointer w e) normalizedBall
                                    d (Rmin (d / 800) 1 * 500))))
    by (rewrite Hw'; reflexivity).
  assert (Hspeed : speed = Rmin (d / 800) 1 * 500).
  { unfold speed. rewrite Hball. cbn [Ball.vx Ball.vy].
    rewrite splitHypotenuse_norm.
    - apply Rabs_right. nra.
    - exact Hd.
    - unfold d. rewrite distance_sqrt. apply pow2_sqrt, distanceSquared_nonneg. }
  split; [now rewrite Hw'|]. split; [exact Hspeed|]. split; [|split].
  - exists (Rmin (d / 800) 1 * 500 / d). split.
    + apply Rdiv_lt_0_compat; nra.
    + rewrite Hball. unfold splitHypotenuse.
      cbn [Ball.vx Ball.vy Position.x Position.y]. split; field; exact Hd.
  - intros Hfar. rewrite Hspeed. unfold MAX_DISTANCE, MAX_VELOCITY in *.
    rewrite Rmin_right; lra.
  - intros Hhalf. rewrite Hspeed. unfold MAX_DISTANCE, MAX_VELOCITY in *.
    rewrite Rmin_left; lra.
Qed.

(** ** Removing a force *)

Lemma indexOf_lookup (x : ref) (l : list ref) (i : nat) :
  indexOf x l = Some i -> l !! i = Some x.
Proof.
  revert i. induction l as [|y l IH]; intros i; cbn [indexOf]; [discriminate|].
  destruct (decide (y = x)) as [->|Hne].
  - now intros [= <-].
  - destruct (indexOf x l) as [j|] eqn:Hj; [|discriminate].
    intros [= <-]. now apply IH.
Qed.

Lemma indexOf_elem_of (x : ref) (l : list ref) :
  x ∈ l -> exists i, indexOf x l = Some i.
Proof.
  induction l as [|y l IH]; intros Hin; [now apply elem_of_nil in Hin|].
  cbn [indexOf]. destruct (decide (y = x)) as [->|Hne]; [now exists 0%nat|].
  apply elem_of_cons in Hin. destruct Hin as [->|Hin]; [contradiction|].
  destruct (IH Hin) as [i ->]. now exists (S i).
Qed.

Lemma removeForce_found (mouse : Position.t) (force : ref) (w : World)
    (index : nat) :
  indexOf force (forces w) = Some index ->
  forces (removeForce FORCE_RADIUS mouse force w) = delete index (forces w)
  /\ heap (removeForce FORCE_RADIUS mouse force w) = heap w
  /\ emitted (removeForce FORCE_RADIUS mouse force w)
     = emitted w ++ [countForces (removeForce FORCE_RADIUS mouse force w)].
Proof. intros H. unfold removeForce. rewrite H. repeat split. Qed.

(** What [up] does with the button that is neither a shot nor a removal,
    and with a secondary button in general. *)
Lemma up_secondary (e : MouseEvent) (w : World) (start : MouseStart.t) :
  hit w = false ->
  Scene.mouseStart (scene w) = Some start ->
  MouseStart.button start = 2%Z ->
  up FORCE_RADIUS e w
  = on_scene (SceneSet.mouseCurrent None)
      (on_scene (SceneSet.mouseStart None)
         match gestureForce w with
         | Some force =>
             if mouseOnForce FORCE_RADIUS w (pointer w e) force
             then removeForce FORCE_RADIUS (pointer w e) force w
             else w
         | None => w
         end).
Proof.
  intros Hhit Hstart Hbutton. unfold up. rewrite Hhit, Hstart.
  destruct (decide (_ /\ _)) as [[H0 _]|_]; [rewrite Hbutton in H0; lia|].
  destruct (decide (_ = 2%Z)) as [_|Hno]; [reflexivity|contradiction].
Qed.

(** C2, amended: on a secondary-button release in setup mode, when a force
    was associated with the gesture at pointer-down, the release position
    lies within [FORCE_RADIUS] of that force and the force is still in the
    collection, the force is removed from the collection and exactly one
    force-count notification, of the counts after the removal, is sent;
    under any other secondary-button release the collection is as before
    and nothing is sent. *)
Theorem secondary_release_removes (e : MouseEvent) (w : World)
    (start : MouseStart.t) :
  hit w = false ->
  Scene.mouseStart (scene w) = Some start ->
  MouseStart.button start = 2%Z ->
  let w' := up FORCE_RADIUS e w in
  (forall force index,
     gestureForce w = Some force ->
     mouseOnForce FORCE_RADIUS w (pointer w e) force = true ->
     indexOf force (forces w) = Some index ->
     forces w !! index = Some force
     /\ forces w' = delete index (forces w)
     /\ heap w' = heap w
     /\ emitted w' = emitted w ++ [countForces w'])
  /\ (gestureForce w = None
      \/ (exists force,
            gestureForce w = Some force
            /\ (mouseOnForce FORCE_RADIUS w (pointer w e) force = false
                \/ indexOf force (forces w) = None)) ->
      forces w' = forces w /\ heap w' = heap w /\ emitted w' = emitted w).
Proof.
  intros Hhit Hstart Hbutton w'. subst w'.
  rewrite (up_secondary e w start Hhit Hstart Hbutton). split.
  - intros force index Hforce Hon Hindex. rewrite Hforce, Hon.
    split; [now apply indexOf_lookup|].
    exact (removeForce_found (pointer w e) force w index Hindex).
  - intros [Hnone|(force & Hforce & [Hoff|Hgone])].
    + rewrite Hnone. repeat split.
    + rewrite Hforce, Hoff. repeat split.
    + rewrite Hforce. unfold removeForce. rewrite Hgone.
      destruct (mouseOnForce _ _ _ _); repeat split.
Qed.

(** A secondary-button press on a force followed by a release at the same
    place is such a release: the force found at the press is removed. *)
Lemma press_release_removes (e : MouseEvent) (w : World) (force : ref) :
  hit w = false ->
  button e = 2%Z ->
  find (mouseOnForce FORCE_RADIUS w (pointer w e)) (forces w) = Some force ->
  exists index,
    forces w !! index = Some force
    /\ forces (up FORCE_RADIUS e (down FORCE_RADIUS e w))
       = delete index (forces w)
    /\ emitted (up FORCE_RADIUS e (down FORCE_RADIUS e w))
       = emitted w
         ++ [countForces (up FORCE_RADIUS e (down FORCE_RADIUS e w))].
Proof.
  intros Hhit Hbutton Hfind.
  set (w1 := down FORCE_RADIUS e w).
  assert (Hforce : gestureForce w1 = Some force).
  { unfold w1, down, gestureForce. cbn. fold (forces w).
    etransitivity; [|exact Hfind]. reflexivity. }
  apply find_some in Hfind. destruct Hfind as [Hin Hon].
  destruct (indexOf_elem_of force (forces w)) as [index Hindex].
  { now apply list_elem_of_In. }
  exists index. split; [now apply indexOf_lookup|].
  rewrite (up_secondary e w1
             (MouseStart.mk (Position.x (pointer w e))
                            (Position.y (pointer w e)) (button e))
             Hhit eq_refl Hbutton).
  rewrite Hforce. change (pointer w1 e) with (pointer w e).
  change (mouseOnForce FORCE_RADIUS w1) with (mouseOnForce FORCE_RADIUS w).
  rewrite Hon.
  destruct (removeForce_found (pointer w e) force w1 index Hindex)
    as (Hf & _ & He).
  split; [exact Hf | exact He].
Qed.

(** ** Setup mode *)

Lemma tick_hit (time : R) (w : World) :
  hit (tick levels_length time w) = hit w.
Proof.
  unfold tick.
  set (w1 := on_scene (SceneSet.previousTime (Some (time / 1000)))
               (on_scene (SceneSet.frame None) w)).
  change (hit w) with (hit w1).
  destruct (hit w1 && won w1); [reflexivity|].
  destruct (hit w1) eqn:Hhit; cbn; exact Hhit.
Qed.

Lemma tick_setup_ball (time : R) (w : World) :
  hit w = false ->
  ball (tick levels_length time w)
  = integrate (elapsed (Scene.previousTime (scene w)) (time / 1000)) (ball w).
Proof.
  intros Hhit. unfold tick.
  cbn [hit on_scene scene Scene.hit SceneSet.frame SceneSet.previousTime
       Scene.previousTime].
  fold (hit w). rewrite Hhit. reflexivity.
Qed.

Lemma up_hit_or_same (e : MouseEvent) (w : World) :
  hit (up FORCE_RADIUS e w) = true
  \/ (hit (up FORCE_RADIUS e w) = hit w
      /\ ball (up FORCE_RADIUS e w) = ball w).
Proof.
  unfold up. destruct (hit w) eqn:Hhit; [now left|].
  destruct (Scene.mouseStart (scene w)) as [start|]; [|now right].
  destruct (decide (_ /\ _)); [now left|]. right.
  destruct (decide (_ = 2%Z)); [|split; [exact Hhit|reflexivity]].
  destruct (gestureForce w) as [force|]; [|split; [exact Hhit|reflexivity]].
  destruct (mouseOnForce _ _ _ _); [|split; [exact Hhit|reflexivity]].
  unfold removeForce.
  destruct (indexOf _ _); split; first [exact Hhit|reflexivity].
Qed.

Lemma move_hit_ball (e : MouseEvent) (w : World) :
  hit (move FORCE_RADIUS e w) = hit w /\ ball (move FORCE_RADIUS e w) = ball w.
Proof.
  unfold move.
  destruct (Scene.mouseStart (scene w)) as [start|]; [|now split].
  destruct (Scene.mouseCurrent (scene w)) as [current|]; [|now split].
  destruct (decide _); [|now split].
  unfold drag. destruct (MouseCurrent.force current); now split.
Qed.

Lemma step_at_rest (w w' : World) :
  step FORCE_RADIUS levels_length w w' -> at_rest w -> at_rest w'.
Proof.
  unfold at_rest.
  intros Hstep Hrest.
  destruct Hstep as [handle time _|width height _|k _|e _|e _|e _|_
                     |route message _|observer| | |p direction _|]; intros Hhit.
  - rewrite tick_hit in Hhit.
    rewrite tick_setup_ball by exact Hhit. now apply Hrest.
  - now apply Hrest.
  - unfold key in *. destruct (decide _); [now split|now apply Hrest].
  - now apply Hrest.
  - destruct (move_hit_ball e w) as [Hh Hb]. rewrite Hb. apply Hrest.
    now rewrite <- Hh.
  - destruct (up_hit_or_same e w) as [Htrue|[Hh Hb]]; [congruence|].
    rewrite Hb. apply Hrest. now rewrite <- Hh.
  - now apply Hrest.
  - now apply Hrest.
  - now apply Hrest.
  - now split.
  - now split.
  - now apply Hrest.
  - unfold destroy in *.
    destruct (Scene.frame _) as [handle|]; [destruct (decide _)|];
      now apply Hrest.
Qed.

Lemma reachable_at_rest (w : World) :
  reachable FORCE_RADIUS levels_length w -> at_rest w.
Proof.
  induction 1 as [environment width height level _|w w' _ IH Hstep].
  - intros _. now split.
  - now apply (step_at_rest w w').
Qed.

(** C10: in every world the scene can reach, while [hit] is false the
    ball's velocity is exactly zero, and so a tick, which integrates the
    position whatever the mode, leaves the ball where it is. *)
Theorem setup_mode_ball_still (w : World) :
  reachable FORCE_RADIUS levels_length w ->
  hit w = false ->
  Ball.vx (ball w) = 0
  /\ Ball.vy (ball w) = 0
  /\ forall time,
       Ball.x (ball (tick levels_length time w)) = Ball.x (ball w)
       /\ Ball.y (ball (tick levels_length time w)) = Ball.y (ball w).
Proof.
  intros Hreach Hhit.
  destruct (reachable_at_rest w Hreach Hhit) as [Hvx Hvy].
  split; [exact Hvx|]. split; [exact Hvy|].
  intros time. rewrite tick_setup_ball by exact Hhit.
  unfold integrate. cbn [Ball.x Ball.y]. rewrite Hvx, Hvy. split; ring.
Qed.

(** ** [destroy] *)

Lemma destroy_listeners (w : World) :
  Host.listeners (host (destroy w))
  = filter (fun l => l ∉ unregistered) (Host.listeners (host w)).
Proof.
  transitivity
    (filter (fun l => l <> (CanvasElement, "mouseup", OnUp))
       (filter (fun l => l <> (CanvasElement, "mousemove", OnMove))
          (filter (fun l => l <> (CanvasElement, "mousedown", OnDown))
             (filter (fun l => l <> (Document, "keydown", OnKey))
                (filter (fun l => l <> (Window, "resize", OnResize))
                   (Host.listeners (host w))))))).
  - unfold destroy. cbn [scene removeEventListener removeAllEventListeners
                         set_observers on_host].
    destruct (Scene.frame (scene w)) as [handle|]; [|reflexivity].
    destruct (decide (handle = 0%nat)); reflexivity.
  - rewrite !list_filter_filter. apply list_filter_iff. intros l.
    unfold unregistered. rewrite !not_elem_of_cons.
    pose proof (not_elem_of_nil l). tauto.
Qed.

Lemma destroy_frames (w : World) :
  Host.frames (host (destroy w))
  = match Scene.frame (scene w) with
    | Some handle =>
        if decide (handle = 0%nat) then Host.frames (host w)
        else filter (fun h => h <> handle) (Host.frames (host w))
    | None => Host.frames (host w)
    end.
Proof.
  unfold destroy. cbn [scene removeEventListener removeAllEventListeners
                       set_observers on_host].
  destruct (Scene.frame (scene w)) as [handle|]; [|reflexivity].
  destruct (decide (handle = 0%nat)); reflexivity.
Qed.

(** A second [destroy] changes nothing. *)
Lemma destroy_idempotent (w : World) : destroy (destroy w) = destroy w.
Proof.
  assert (Hscene : scene (destroy w) = scene w).
  { unfold destroy. cbn [scene removeEventListener removeAllEventListeners
                         set_observers on_host].
    destruct (Scene.frame (scene w)) as [handle|]; [|reflexivity].
    destruct (decide (handle = 0%nat)); reflexivity. }
  assert (Hl' : Host.listeners (host (destroy (destroy w)))
                = Host.listeners (host (destroy w))).
  { rewrite (destroy_listeners (destroy w)), (destroy_listeners w),
      list_filter_filter.
    apply list_filter_iff. tauto. }
  assert (Hf' : Host.frames (host (destroy (destroy w)))
                = Host.frames (host (destroy w))).
  { rewrite (destroy_frames (destroy w)), Hscene, (destroy_frames w).
    destruct (Scene.frame (scene w)) as [handle|]; [|reflexivity].
    destruct (decide (handle = 0%nat)); [reflexivity|].
    rewrite list_filter_filter. apply list_filter_iff. tauto. }
  assert (Hrest : forall v,
             (scene (destroy v), heap (destroy v), observers (destroy v),
              emitted (destroy v), Host.canvas (host (destroy v)),
              Host.devicePixelRatio (host (destroy v)),
              Host.nextHandle (host (destroy v)),
              Host.alerts (host (destroy v)),
              Host.navigations (host (destroy v)))
             = (scene v, heap v, [], emitted v, Host.canvas (host v),
                Host.devicePixelRatio (host v), Host.nextHandle (host v),
                Host.alerts (host v), Host.navigations (host v))).
  { intros v. unfold destroy.
    cbn [scene removeEventListener removeAllEventListeners set_observers
         on_host].
    destruct (Scene.frame (scene v)) as [handle|]; [|reflexivity].
    destruct (decide (handle = 0%nat)); reflexivity. }
  pose proof (Hrest (destroy w)) as H2. pose proof (Hrest w) as H1.
  clear Hrest Hscene.
  destruct (destroy (destroy w)) as [s2 [c2 d2 l2 f2 n2 a2 g2] h2 o2 e2].
  destruct (destroy w) as [s1 [c1 d1 l1 f1 n1 a1 g1] h1 o1 e1].
  cbn in *. simplify_eq. reflexivity.
Qed.

(** The listener [destroy] forgets. *)
Lemma destroy_keeps_contextmenu (w : World) :
  (CanvasElement, "contextmenu", OnRightClick) ∈ Host.listeners (host w) ->
  (CanvasElement, "contextmenu", OnRightClick)
    ∈ Host.listeners (host (destroy w)).
Proof.
  intros Hin. rewrite destroy_listeners. apply list_elem_of_filter.
  split; [|exact Hin].
  unfold unregistered. rewrite !not_elem_of_cons.
  repeat split; try discriminate. apply not_elem_of_nil.
Qed.

(** Only [tick] requests a frame, and only [tick] and [destroy] touch the
    pending ones. *)
Lemma schedule_up (e : MouseEvent) (w : World) :
  schedule (up FORCE_RADIUS e w) = schedule w.
Proof.
  unfold up, shoot, removeForce. repeat case_match; reflexivity.
Qed.

Lemma schedule_move (e : MouseEvent) (w : World) :
  schedule (move FORCE_RADIUS e w) = schedule w.
Proof. unfold move, drag. repeat case_match; reflexivity. Qed.

Lemma schedule_tick (time : R) (w : World) :
  schedule (tick levels_length time w) = (Host.frames (host w), None,
                                          Host.nextHandle (host w))
  \/ schedule (tick levels_length time w)
     = (Host.frames (host w) ++ [Host.nextHandle (host w)],
        Some (Host.nextHandle (host w)), S (Host.nextHandle (host w))).
Proof.
  unfold tick.
  set (w1 := on_scene (SceneSet.previousTime (Some (time / 1000)))
               (on_scene (SceneSet.frame None) w)).
  destruct (hit w1 && won w1); [left; reflexivity|right].
  destruct (hit w1); reflexivity.
Qed.

Lemma step_frame_tracked (w w' : World) :
  step FORCE_RADIUS levels_length w w' -> frame_tracked w -> frame_tracked w'.
Proof.
  intros Hstep (Hpending & Hnonzero & Hnext).
  assert (Hsame : schedule w' = schedule w -> frame_tracked w').
  { unfold schedule. intros [= Hf Hs Hn]. unfold frame_tracked.
    rewrite Hf, Hs, Hn. auto. }
  destruct Hstep as [handle time Hin|width height _|k _|e _|e _|e _|_
                     |route message _|observer| | |p direction _|];
    try (apply Hsame; reflexivity).
  - set (w0 := cancelAnimationFrame handle w).
    assert (Hempty : Host.frames (host w0) = []).
    { unfold w0, cancelAnimationFrame. cbn.
      apply filter_none. intros x Hx.
      pose proof (Hpending _ Hin) as H1. pose proof (Hpending _ Hx) as H2.
      intros Hne. apply Hne. congruence. }
    assert (Hn0 : Host.nextHandle (host w0) = Host.nextHandle (host w))
      by reflexivity.
    destruct (schedule_tick time w0) as [Hs|Hs]; unfold schedule in Hs;
      rewrite Hempty, Hn0 in Hs; injection Hs as Hf Hfr Hn;
      unfold frame_tracked; rewrite Hf, Hfr, Hn.
    + repeat split; [intros x Hx; now apply elem_of_nil in Hx
                    |discriminate|exact Hnext].
    + repeat split; [|intros x [= <-]; lia|lia].
      intros x Hx. apply list_elem_of_singleton in Hx. now subst.
  - apply Hsame. unfold key. case_match; reflexivity.
  - apply Hsame. apply schedule_move.
  - apply Hsame. apply schedule_up.
  - unfold frame_tracked. rewrite destroy_frames.
    assert (Hscene : scene (destroy w) = scene w).
    { unfold destroy. cbn [scene removeEventListener removeAllEventListeners
                           set_observers on_host].
      repeat case_match; reflexivity. }
    assert (Hn : Host.nextHandle (host (destroy w)) = Host.nextHandle (host w)).
    { unfold destroy. repeat case_match; reflexivity. }
    rewrite Hscene, Hn. repeat split; [|exact Hnonzero|exact Hnext].
    intros x Hx. apply Hpending.
    destruct (Scene.frame (scene w)) as [handle|]; [|exact Hx].
    destruct (decide (handle = 0%nat)); [exact Hx|].
    now apply list_elem_of_filter in Hx.
Qed.

Lemma schedule_inv (w : World) (pending : list nat) (remembered : option nat)
    (next : nat) :
  schedule w = (pending, remembered, next) ->
  Host.frames (host w) = pending
  /\ Scene.frame (scene w) = remembered
  /\ Host.nextHandle (host w) = next.
Proof. unfold schedule. intros [= -> -> ->]. auto. Qed.

Lemma schedule_addEventListener (l : Listener) (w : World) :
  schedule (addEventListener l w) = schedule w.
Proof.
  unfold addEventListener, schedule, on_host. cbn [host scene].
  case_match; reflexivity.
Qed.

Lemma construct_schedule (environment : Host.t) (width height : R)
    (level : Level.t) :
  schedule (construct environment width height level)
  = (Host.frames environment ++ [Host.nextHandle environment],
     Some (Host.nextHandle environment), S (Host.nextHandle environment)).
Proof.
  unfold construct. cbv zeta.
  set (w6 := addEventListener (CanvasElement, "contextmenu", OnRightClick) _).
  assert (H6 : schedule w6
               = (Host.frames environment, None, Host.nextHandle environment)).
  { unfold w6. now rewrite !schedule_addEventListener. }
  clearbody w6. unfold schedule in *. injection H6 as Hf Hs Hn.
  unfold requestAnimationFrame. cbn. now rewrite Hf, Hn.
Qed.

Lemma reachable_frame_tracked (w : World) :
  reachable FORCE_RADIUS levels_length w -> frame_tracked w.
Proof.
  induction 1 as [environment width height level (Hl & Hf & Hn)
                 |w w' _ IH Hstep].
  - unfold frame_tracked.
    pose proof (construct_schedule environment width height level) as Hs.
    destruct (schedule_inv _ _ _ _ Hs) as (Hfr & Hsc & Hnx).
    rewrite Hfr, Hsc, Hnx, Hf.
    repeat split; [|intros x [= <-]; lia|lia].
    intros x Hx. apply list_elem_of_singleton in Hx. now subst.
  - now apply (step_frame_tracked w w').
Qed.

(** [destroy] leaves no frame pending. *)
Lemma destroy_cancels_frame (w : World) :
  reachable FORCE_RADIUS levels_length w ->
  Host.frames (host (destroy w)) = [].
Proof.
  intros Hreach.
  destruct (reachable_frame_tracked w Hreach) as (Hpending & Hnonzero & _).
  rewrite destroy_frames.
  destruct (Scene.frame (scene w)) as [handle|].
  - rewrite decide_False by (now apply Hnonzero).
    apply filter_none. intros y Hy Hne.
    apply Hne. pose proof (Hpending y Hy). congruence.
  - destruct (Host.frames (host w)) as [|x l]; [reflexivity|].
    discriminate (Hpending x (list_elem_of_here x l)).
Qed.

(** With no frame pending none is requested again, so no tick runs any
    more. *)
Lemma no_frame_stays (w w' : World) :
  step FORCE_RADIUS levels_length w w' ->
  Host.frames (host w) = [] -> Host.frames (host w') = [].
Proof.
  intros Hstep Hnone.
  assert (Hsame : schedule w' = schedule w -> Host.frames (host w') = []).
  { unfold schedule. intros [= Hf _ _]. now rewrite Hf. }
  destruct Hstep as [handle time Hin|width height _|k _|e _|e _|e _|_
                     |route message _|observer| | |p direction _|];
    try (apply Hsame; reflexivity).
  - rewrite Hnone in Hin. now apply elem_of_nil in Hin.
  - apply Hsame. unfold key. case_match; reflexivity.
  - apply Hsame. apply schedule_move.
  - apply Hsame. apply schedule_up.
  - rewrite destroy_frames, Hnone. repeat case_match; reflexivity.
Qed.

(** C8: the scene of the example level is destroyed.  No frame stays
    pending and a second [destroy] changes nothing, but the listener for
    [contextmenu], registered at construction, is still registered: the
    host can still call [rightClick]. *)
Theorem destroy_forgets_contextmenu :
  (CanvasElement, "contextmenu", OnRightClick)
    ∈ Host.listeners (host demo_world)
  /\ Host.listeners (host (destroy demo_world))
     = [(CanvasElement, "contextmenu", OnRightClick)]
  /\ step FORCE_RADIUS levels_length (destroy demo_world)
          (rightClick (destroy demo_world))
  /\ Host.frames (host (destroy demo_world)) = []
  /\ destroy (destroy demo_world) = destroy demo_world.
Proof.
  assert (Hleft : Host.listeners (host (destroy demo_world))
                  = [(CanvasElement, "contextmenu", OnRightClick)])
    by reflexivity.
  split; [|split; [exact Hleft|split; [|split]]].
  - assert (Hreg : Host.listeners (host demo_world)
                   = unregistered
                     ++ [(CanvasElement, "contextmenu", OnRightClick)])
      by reflexivity.
    rewrite Hreg. apply elem_of_app. right. apply list_elem_of_here.
  - apply step_rightClick. rewrite Hleft. apply list_elem_of_here.
  - reflexivity.
  - apply destroy_idempotent.
Qed.

(** ** References *)

Lemma objects_tick (time : R) (w : World) :
  objects (tick levels_length time w) = objects w.
Proof.
  unfold tick.
  set (w1 := on_scene (SceneSet.previousTime (Some (time / 1000)))
               (on_scene (SceneSet.frame None) w)).
  destruct (hit w1 && won w1); [reflexivity|].
  destruct (hit w1); reflexivity.
Qed.

Lemma refs_valid_objects (w w' : World) :
  objects w' = objects w -> refs_valid w -> refs_valid w'.
Proof.
  unfold objects, refs_valid. intros [= Hf Hh Hg]. now rewrite Hf, Hh, Hg.
Qed.

Lemma refs_valid_length (w w' : World) :
  forces w' = forces w ->
  length (heap w') = length (heap w) ->
  (forall force, gestureForce w' = Some force -> gestureForce w = Some force) ->
  refs_valid w -> refs_valid w'.
Proof.
  unfold refs_valid. intros Hf Hh Hg (Hnodup & Hbound & Hgesture).
  rewrite Hf, Hh. auto.
Qed.

Lemma NoDup_delete_lookup (l : list ref) (i : nat) (x : ref) :
  NoDup l -> l !! i = Some x -> x ∉ delete i l.
Proof.
  intros Hnodup Hlookup.
  rewrite <- (take_drop_middle l i x Hlookup) in Hnodup.
  rewrite delete_take_drop.
  apply NoDup_app in Hnodup. destruct Hnodup as (_ & Hleft & Hright).
  apply NoDup_cons in Hright. destruct Hright as [Hnotin _].
  intros Hin. apply elem_of_app in Hin. destruct Hin as [Hin|Hin].
  - apply (Hleft x Hin), list_elem_of_here.
  - contradiction.
Qed.

Lemma refs_valid_allocate (w : World) (created : list Force.t) :
  NoDup (seq (length (heap w)) (length created))
  /\ Forall (fun force : ref => (force < length (heap w ++ created))%nat)
            (seq (length (heap w)) (length created)).
Proof.
  split; [apply NoDup_seq|].
  apply Forall_seq. intros j Hj. rewrite length_app. lia.
Qed.

Lemma step_refs_valid (w w' : World) :
  step FORCE_RADIUS levels_length w w' -> refs_valid w -> refs_valid w'.
Proof.
  intros Hstep Hvalid.
  pose proof Hvalid as (Hnodup & Hbound & Hgesture).
  destruct Hstep as [handle time _|width height _|k _|e _|e _|e _|_
                     |route message _|observer| | |p direction _|];
    try (apply (refs_valid_objects w); [reflexivity|exact Hvalid]).
  - apply (refs_valid_objects w); [|exact Hvalid].
    now rewrite objects_tick.
  - apply (refs_valid_objects w); [|exact Hvalid].
    unfold key. case_match; reflexivity.
  - (* down *)
    repeat split; [exact Hnodup|exact Hbound|].
    intros force Hforce.
    change (find (mouseOnForce FORCE_RADIUS w (pointer w e)) (forces w)
            = Some force) in Hforce.
    apply find_some in Hforce. destruct Hforce as [Hin _].
    apply list_elem_of_In in Hin.
    rewrite Forall_forall in Hbound. now apply Hbound.
  - (* move *)
    unfold move.
    destruct (Scene.mouseStart (scene w)) as [start|] eqn:Hstart;
      [|exact Hvalid].
    destruct (Scene.mouseCurrent (scene w)) as [current|] eqn:Hcurrent;
      [|exact Hvalid].
    destruct (decide _); [|exact Hvalid].
    assert (Hforce : gestureForce w = MouseCurrent.force current)
      by (unfold gestureForce; now rewrite Hcurrent).
    apply (refs_valid_length w); [| | |exact Hvalid].
    + unfold drag. destruct (MouseCurrent.force current); reflexivity.
    + unfold drag. destruct (MouseCurrent.force current) as [force|];
        [|reflexivity].
      apply length_insert.
    + intros r Hr. rewrite Hforce. etransitivity; [|exact Hr].
      unfold drag. destruct (MouseCurrent.force current); reflexivity.
  - (* up *)
    unfold up. destruct (hit w); [exact Hvalid|].
    destruct (Scene.mouseStart (scene w)) as [start|]; [|exact Hvalid].
    destruct (decide (_ /\ _)).
    { repeat split; [exact Hnodup|exact Hbound|discriminate]. }
    destruct (decide (_ = 2%Z));
      [|repeat split; [exact Hnodup|exact Hbound|discriminate]].
    destruct (gestureForce w) as [force|];
      [|repeat split; [exact Hnodup|exact Hbound|discriminate]].
    destruct (mouseOnForce _ _ _ _);
      [|repeat split; [exact Hnodup|exact Hbound|discriminate]].
    unfold removeForce. destruct (indexOf force (forces w)) as [index|];
      [|repeat split; [exact Hnodup|exact Hbound|discriminate]].
    repeat split; [| |discriminate].
    + change (NoDup (delete index (forces w))).
      apply (sublist_NoDup _ (forces w)); [exact Hnodup|apply sublist_delete].
    + change (Forall (fun force : ref => (force < length (heap w))%nat)
                     (delete index (forces w))).
      now apply Forall_delete.
  - (* clear *)
    set (created :=
           map (fun force => Force.mk (Position.x force) (Position.y force) 1)
               (Level.defaultGravity (Scene.level (scene w)))
           ++ map (fun force => Force.mk (Position.x force) (Position.y force) 1)
                  (Level.defaultAntigravity (Scene.level (scene w)))).
    destruct (refs_valid_allocate w created) as [Hfresh Hin].
    repeat split; [exact Hfresh|exact Hin|].
    intros force Hforce.
    change (force < length (heap w ++ created))%nat.
    rewrite length_app. apply Hgesture in Hforce. lia.
  - (* addForce *)
    set (created :=
           Force.mk
             (Position.x p * Host.devicePixelRatio (host w) + FORCE_RADIUS
              - Canvas.width (canvas w) / 2 - Position.x (center w))
             (- Position.y p * Host.devicePixelRatio (host w) - FORCE_RADIUS
              + Canvas.height (canvas w) / 2 - Position.y (center w))
             direction).
    repeat split.
    + change (NoDup (forces w ++ [length (heap w)])).
      apply NoDup_app. repeat split; [exact Hnodup| |apply NoDup_singleton].
      intros x Hx Hx'. apply list_elem_of_singleton in Hx'. subst x.
      rewrite Forall_forall in Hbound. apply Hbound in Hx. lia.
    + change (Forall (fun force : ref =>
                        (force < length (heap w ++ [created]))%nat)
                     (forces w ++ [length (heap w)])).
      apply Forall_app. split.
      * eapply Forall_impl; [exact Hbound|].
        intros x Hx. cbn beta in *. rewrite length_app. lia.
      * apply Forall_singleton. rewrite length_app. cbn. lia.
    + intros force Hforce.
      change (force < length (heap w ++ [created]))%nat.
      rewrite length_app. apply Hgesture in Hforce. lia.
  - (* destroy *)
    apply (refs_valid_objects w); [|exact Hvalid].
    unfold destroy. repeat case_match; reflexivity.
Qed.

Lemma objects_addEventListener (l : Listener) (w : World) :
  objects (addEventListener l w) = objects w.
Proof.
  unfold addEventListener, objects, on_host, forces, gestureForce.
  cbn [scene heap]. reflexivity.
Qed.

Lemma reachable_refs_valid (w : World) :
  reachable FORCE_RADIUS levels_length w -> refs_valid w.
Proof.
  induction 1 as [environment width height level _|w w' _ IH Hstep].
  - set (created :=
           map (fun force => Force.mk (Position.x force) (Position.y force) 1)
               (Level.defaultGravity level)
           ++ map (fun force => Force.mk (Position.x force) (Position.y force) 1)
                  (Level.defaultAntigravity level)).
    assert (Hobjects :
              objects (construct environment width height level)
              = (seq 0 (length created), created, None)).
    { unfold construct. cbv zeta.
      set (w6 := addEventListener
                   (CanvasElement, "contextmenu", OnRightClick) _).
      assert (H6 : objects w6 = (seq 0 (length created), created, None)).
      { unfold w6. now rewrite !objects_addEventListener. }
      clearbody w6. exact H6. }
    unfold objects in Hobjects. unfold refs_valid.
    pose proof (f_equal (fun o => fst (fst o)) Hobjects) as Hf.
    pose proof (f_equal (fun o => snd (fst o)) Hobjects) as Hh.
    pose proof (f_equal snd Hobjects) as Hg. cbn [fst snd] in Hf, Hh, Hg.
    rewrite Hf, Hh, Hg. repeat split; [apply NoDup_seq| |discriminate].
    apply Forall_seq. intros j Hj. lia.
  - now apply (step_refs_valid w w').
Qed.

(** In a world the scene can reach, a force removed by [up] is no longer in
    the collection. *)
Lemma removed_force_gone (e : MouseEvent) (w : World) (start : MouseStart.t)
    (force : ref) (index : nat) :
  reachable FORCE_RADIUS levels_length w ->
  hit w = false ->
  Scene.mouseStart (scene w) = Some start ->
  MouseStart.button start = 2%Z ->
  gestureForce w = Some force ->
  mouseOnForce FORCE_RADIUS w (pointer w e) force = true ->
  indexOf force (forces w) = Some index ->
  force ∉ forces (up FORCE_RADIUS e w).
Proof.
  intros Hreach Hhit Hstart Hbutton Hforce Hon Hindex.
  destruct (reachable_refs_valid w Hreach) as (Hnodup & _ & _).
  rewrite (up_secondary e w start Hhit Hstart Hbutton), Hforce, Hon.
  destruct (removeForce_found (pointer w e) force w index Hindex) as (Hf & _).
  change (force ∉ forces (removeForce FORCE_RADIUS (pointer w e) force w)).
  rewrite Hf. apply NoDup_delete_lookup; [exact Hnodup|].
  now apply indexOf_lookup.
Qed.

End Properties.

(** * The properties on the example worlds *)

(** Reading a field of an explicit world. *)
Ltac project :=
  cbn [scene host heap observers emitted hit ball forces center canvas
       on_scene on_host set_heap set_observers set_emitted
       Scene.previousTime Scene.frame Scene.center Scene.mouseStart
       Scene.mouseCurrent Scene.hit Scene.forces Scene.ball Scene.hole
       Scene.stars Scene.walls Scene.level
       SceneSet.previousTime SceneSet.frame SceneSet.center
       SceneSet.mouseStart SceneSet.mouseCurrent SceneSet.hit SceneSet.forces
       SceneSet.ball
       Host.canvas Host.devicePixelRatio Host.listeners Host.frames
       Host.nextHandle Host.alerts Host.navigations
       HostSet.canvas HostSet.listeners HostSet.frames HostSet.nextHandle
       HostSet.alerts HostSet.navigations
       Canvas.width Canvas.height Canvas.cursor
       Position.x Position.y Circle.x Circle.y Circle.radius Circle.position
       Ball.x Ball.y Ball.radius Ball.vx Ball.vy Ball.position
       Wall.x Wall.y Wall.width Wall.height
       Force.x Force.y Force.direction Force.position
       MouseStart.x MouseStart.y MouseStart.button
       MouseCurrent.x MouseCurrent.y MouseCurrent.force
       offsetX offsetY button fst snd] in *.

Lemma demo_world_eq :
  demo_world
  = mkWorld
      (Scene.mk None (Some 1%nat) (Position.mk 0 0) None None false
                [0%nat; 1%nat] (Ball.mk 0 0 10 0 0) (Circle.mk 50 0 20) [] []
                demo_level)
      (Host.mk (Canvas.mk 200 200 "") 1
               (unregistered ++ [(CanvasElement, "contextmenu", OnRightClick)])
               [1%nat] 2 [] [])
      [Force.mk (-60) 0 1; Force.mk 0 0 1] [] [(2%nat, 0%nat)].
Proof. reflexivity. Qed.



Lemma demo_pointer (a b k : Z) (w : World) :
  Host.devicePixelRatio (host w) = 1 ->
  pointer w (Build_MouseEvent (IZR a) (IZR b) k)
  = Position.mk (IZR a) (IZR b).
Proof.
  intros Hscale. unfold pointer. project.
  now rewrite !Zfloor_integer by exact Hscale.
Qed.

Lemma tick_win_iff_contained_witness :
  hit demo_holed = true
  /\ Host.alerts (host (tick 3 16 demo_holed)) = ["Congratulations!"]
  /\ Host.navigations (host (tick 3 16 demo_holed)) = [LevelPage 2]
  /\ ball (tick 3 16 demo_holed) = ball demo_holed
  /\ Scene.frame (scene (tick 3 16 demo_holed)) = None
  /\ Host.frames (host (tick 3 16 demo_holed)) = Host.frames (host demo_holed).
Proof.
  split; [reflexivity|].
  destruct (tick_win_iff_contained 3 16 demo_holed eq_refl) as (_ & Hwin & _).
  cbv zeta in Hwin.
  destruct Hwin as (Halert & Hgoto & Hball & Hframe & Hframes & _).
  - apply distance_le_iff. unfold distanceSquared, normalizePoint, demo_holed,
      demo_motion. rewrite demo_world_eq. project. split; lra.
  - rewrite Halert, Hgoto, Hball, Hframe, Hframes. repeat split.
Defined.




Lemma force_acceleration_clamped_witness :
  deref demo_world 0%nat = Force.mk (-60) 0 1
  /\ sqrt (Position.x (acceleration demo_world (ball demo_world)
                         (deref demo_world 0%nat)) ^ 2
           + Position.y (acceleration demo_world (ball demo_world)
                           (deref demo_world 0%nat)) ^ 2)
     <= 5000.
Proof.
  split; [reflexivity|].
  apply (force_acceleration_clamped 0 demo_world (ball demo_world) 0%nat).
  change (deref demo_world 0%nat) with (Force.mk (-60) 0 1).
  rewrite demo_world_eq. unfold distanceSquared, normalizePoint. project. lra.
Defined.

Lemma demo_aimed_distance :
  distance (pointer demo_aimed demo_aim)
           (normalizePoint (Ball.position (ball demo_aimed)) (canvas demo_aimed)
                           (center demo_aimed))
  = 60.
Proof.
  unfold demo_aim. rewrite demo_pointer by reflexivity.
  change (ball demo_aimed) with (ball demo_world).
  change (canvas demo_aimed) with (canvas demo_world).
  change (center demo_aimed) with (center demo_world).
  rewrite demo_world_eq. unfold distance, normalizePoint. project.
  replace ((200 / 2 + 0 + 0 - 100) ^ 2 + (200 / 2 - 0 - 0 - 160) ^ 2)
    with (60 ^ 2) by lra.
  apply sqrt_pow2. lra.
Qed.

Lemma shot_velocity_witness :
  hit demo_aimed = false
  /\ hit (up 30 demo_aim demo_aimed) = true
  /\ sqrt (Ball.vx (ball (up 30 demo_aim demo_aimed)) ^ 2
           + Ball.vy (ball (up 30 demo_aim demo_aimed)) ^ 2)
     = Rmin (60 / 800) 1 * 500.
Proof.
  split; [reflexivity|].
  destruct (shot_velocity 30 demo_aim demo_aimed
              (MouseStart.mk (Position.x (pointer demo_world demo_aim))
                             (Position.y (pointer demo_world demo_aim)) 0)
              eq_refl eq_refl eq_refl eq_refl eq_refl)
    as (Hhit & Hspeed & _).
  - rewrite demo_aimed_distance. lra.
  - split; [exact Hhit|]. rewrite Hspeed. now rewrite demo_aimed_distance.
Defined.

Lemma setup_mode_ball_still_witness :
  hit demo_world = false
  /\ Ball.vx (ball demo_world) = 0
  /\ Ball.vy (ball demo_world) = 0
  /\ Ball.x (ball (tick 3 16 demo_world)) = Ball.x (ball demo_world)
  /\ Ball.y (ball (tick 3 16 demo_world)) = Ball.y (ball demo_world).
Proof.
  split; [reflexivity|].
  assert (Hvacant : vacant demo_host) by (repeat split; cbn; lia).
  destruct (setup_mode_ball_still 30 3 demo_world
              (reachable_construct 30 3 demo_host 200 200 demo_level Hvacant)
              eq_refl) as (Hvx & Hvy & Hstill).
  split; [exact Hvx|]. split; [exact Hvy|]. exact (Hstill 16).
Defined.

(** The first force of [demo_world] is drawn around the pixel (40, 100). *)
Lemma demo_on_force (w : World) (m : Position.t) :
  heap w = heap demo_world ->
  canvas w = canvas demo_world ->
  center w = center demo_world ->
  (Position.x m - 40) ^ 2 + (Position.y m - 100) ^ 2 <= 30 ^ 2 ->
  mouseOnForce 30 w m 0%nat = true.
Proof.
  intros Hheap Hcanvas Hcenter Hnear. unfold mouseOnForce, deref.
  rewrite Hheap, Hcanvas, Hcenter, demo_world_eq. project.
  change ([Force.mk (-60) 0 1; Force.mk 0 0 1] !!! 0%nat)
    with (Force.mk (-60) 0 1).
  apply bool_decide_eq_true_2, distance_le_iff.
  unfold distanceSquared, normalizePoint. project. split; [lra|].
  replace (Position.x m - (200 / 2 + -60 + 0)) with (Position.x m - 40) by lra.
  replace (Position.y m - (200 / 2 - 0 - 0)) with (Position.y m - 100) by lra.
  exact Hnear.
Qed.

Lemma demo_pressed_start :
  Scene.mouseStart (scene demo_pressed) = Some (MouseStart.mk 40 100 2).
Proof.
  change (Scene.mouseStart (scene demo_pressed))
    with (Some (MouseStart.mk (Position.x (pointer demo_world demo_press))
                              (Position.y (pointer demo_world demo_press)) 2)).
  unfold demo_press. now rewrite demo_pointer by reflexivity.
Qed.

Lemma demo_pressed_force : gestureForce demo_pressed = Some 0%nat.
Proof.
  change (gestureForce demo_pressed)
    with (find (mouseOnForce 30 demo_world (pointer demo_world demo_press))
               [0%nat; 1%nat]).
  cbn [find]. unfold demo_press. rewrite demo_pointer by reflexivity.
  rewrite demo_on_force; [reflexivity..|]. project. lra.
Qed.

Lemma demo_released (e : MouseEvent) :
  mouseOnForce 30 demo_pressed (pointer demo_pressed e) 0%nat = true ->
  forces (up 30 e demo_pressed) = [1%nat]
  /\ emitted (up 30 e demo_pressed)
     = emitted demo_pressed ++ [(1%nat, 0%nat)].
Proof.
  intros Hon.
  rewrite (up_secondary 30 e demo_pressed (MouseStart.mk 40 100 2) eq_refl
             demo_pressed_start eq_refl).
  rewrite demo_pressed_force, Hon.
  destruct (removeForce_found 30 (pointer demo_pressed e) 0%nat demo_pressed
              0%nat eq_refl) as (Hforces & _ & Hemitted).
  split; [exact Hforces|]. etransitivity; [exact Hemitted|]. reflexivity.
Qed.

(** C2 as stated fails: the secondary button is released five pixels away
    from where it was pressed, so a drag occurred, and yet the force is
    removed and a notification is sent. *)
Lemma secondary_release_after_drag :
  hit demo_pressed = false
  /\ Scene.mouseStart (scene demo_pressed) = Some (MouseStart.mk 40 100 2)
  /\ pointer demo_pressed demo_release = Position.mk 45 100
  /\ gestureForce demo_pressed = Some 0%nat
  /\ forces demo_pressed = [0%nat; 1%nat]
  /\ forces (up 30 demo_release demo_pressed) = [1%nat]
  /\ emitted (up 30 demo_release demo_pressed)
     = emitted demo_pressed ++ [(1%nat, 0%nat)].
Proof.
  assert (Hpointer : pointer demo_pressed demo_release = Position.mk 45 100)
    by (unfold demo_release; now rewrite demo_pointer by reflexivity).
  split; [reflexivity|]. split; [exact demo_pressed_start|].
  split; [exact Hpointer|]. split; [exact demo_pressed_force|].
  split; [reflexivity|].
  apply demo_released. rewrite Hpointer.
  apply demo_on_force; [reflexivity..|]. project. lra.
Qed.

Lemma secondary_release_removes_witness :
  hit demo_pressed = false
  /\ pointer demo_pressed demo_press = Position.mk 40 100
  /\ forces demo_pressed !! 0%nat = Some 0%nat
  /\ forces (up 30 demo_press demo_pressed) = delete 0%nat (forces demo_pressed)
  /\ emitted (up 30 demo_press demo_pressed)
     = emitted demo_pressed ++ [countForces (up 30 demo_press demo_pressed)].
Proof.
  assert (Hpointer : pointer demo_pressed demo_press = Position.mk 40 100)
    by (unfold demo_press; now rewrite demo_pointer by reflexivity).
  split; [reflexivity|]. split; [exact Hpointer|].
  destruct (secondary_release_removes 30 demo_press demo_pressed
              (MouseStart.mk 40 100 2) eq_refl demo_pressed_start eq_refl)
    as [Hremoved _].
  destruct (Hremoved 0%nat 0%nat demo_pressed_force) as (Hl & Hf & _ & He).
  - rewrite Hpointer. apply demo_on_force; [reflexivity..|]. project. lra.
  - reflexivity.
  - split; [exact Hl|]. split; [exact Hf|exact He].
Defined.

Lemma demo_shot_hit : hit demo_shot = true.
Proof.
  unfold demo_shot.
  now rewrite (up_shoots 30 demo_aim demo_aimed
                 (MouseStart.mk (Position.x (pointer demo_world demo_aim))
                                (Position.y (pointer demo_world demo_aim)) 0)
                 eq_refl eq_refl eq_refl eq_refl eq_refl).
Qed.

Lemma up_in_motion_returns_witness :
  hit demo_shot = true /\ up 30 demo_release demo_shot = demo_shot.
Proof.
  split; [exact demo_shot_hit|].
  apply (up_in_motion_returns 30 demo_release demo_shot demo_shot_hit).
Defined.

(** * Further properties of the scene *)

Lemma demo_reachable : reachable 30 3 demo_world.
Proof.
  apply reachable_construct. repeat split; cbn; lia.
Qed.

Section Notifications.

Variable FORCE_RADIUS : R.
Variable levels_length : Z.

(** ** The force counts *)

Lemma countForces_filter (w : World) :
  countForces w
  = (length (filter (fun force => Force.direction (deref w force) = 1%Z)
                    (forces w)),
     length (filter (fun force => Force.direction (deref w force) <> 1%Z)
                    (forces w))).
Proof.
  unfold countForces.
  enough (G : forall l a b,
             fold_left
               (fun remaining force =>
                  if decide (Force.direction (deref w force) = 1%Z)
                  then (S (fst remaining), snd remaining)
                  else (fst remaining, S (snd remaining))) l (a, b)
             = ((a + length (filter (fun force =>
                                       Force.direction (deref w force) = 1%Z)
                                    l))%nat,
                (b + length (filter (fun force =>
                                       Force.direction (deref w force) <> 1%Z)
                                    l))%nat))
    by exact (G (forces w) 0%nat 0%nat).
  induction l as [|r l IH]; intros a b; cbn [fold_left].
  - rewrite !filter_nil. cbn. f_equal; lia.
  - destruct (decide (Force.direction (deref w r) = 1%Z)) as [Hr|Hr];
      cbn [fst snd]; rewrite IH.
    + rewrite (filter_cons_True _ r l Hr).
      rewrite (filter_cons_False (fun force =>
                 Force.direction (deref w force) <> 1%Z) r l) by tauto.
      cbn [length]. f_equal; lia.
    + rewrite (filter_cons_False _ r l Hr).
      rewrite (filter_cons_True (fun force =>
                 Force.direction (deref w force) <> 1%Z) r l Hr).
      cbn [length]. f_equal; lia.
Qed.

(** The counts depend on the collection and on the directions only. *)
Lemma countForces_ext (w w' : World) :
  forces w' = forces w ->
  (forall force, force ∈ forces w ->
     Force.direction (deref w' force) = Force.direction (deref w force)) ->
  countForces w' = countForces w.
Proof.
  unfold countForces. intros -> Hdir.
  generalize (0%nat, 0%nat).
  induction (forces w) as [|r l IH]; intros acc; cbn [fold_left];
    [reflexivity|].
  rewrite (Hdir r) by apply list_elem_of_here.
  apply IH. intros force Hin. apply Hdir. now apply list_elem_of_further.
Qed.

(** X1: the two numbers of a force-count notification are the number of
    forces of direction 1 and the number of all the others (a direction that
    is neither 1 nor -1 counts as repulsive); together they are the size of
    the collection. *)
Theorem notification_counts_partition (w : World) :
  emitted (dispatchForces w) = emitted w ++ [countForces w]
  /\ fst (countForces w)
     = length (filter (fun force => Force.direction (deref w force) = 1%Z)
                      (forces w))
  /\ snd (countForces w)
     = length (filter (fun force => Force.direction (deref w force) <> 1%Z)
                      (forces w))
  /\ (fst (countForces w) + snd (countForces w))%nat = length (forces w).
Proof.
  split; [reflexivity|]. rewrite countForces_filter. cbn [fst snd].
  split; [reflexivity|]. split; [reflexivity|].
  induction (forces w) as [|r l IH]; [reflexivity|].
  destruct (decide (Force.direction (deref w r) = 1%Z)) as [Hr|Hr].
  - rewrite (filter_cons_True _ r l Hr).
    rewrite (filter_cons_False (fun force =>
               Force.direction (deref w force) <> 1%Z) r l) by tauto.
    cbn [length]. lia.
  - rewrite (filter_cons_False _ r l Hr).
    rewrite (filter_cons_True (fun force =>
               Force.direction (deref w force) <> 1%Z) r l Hr).
    cbn [length]. lia.
Qed.

End Notifications.

Section UpToDate.

Variable FORCE_RADIUS : R.
Variable levels_length : Z.

Lemma insert_same_direction (h : list Force.t) (i r : nat) (f : Force.t) :
  Force.direction f = Force.direction (h !!! i) ->
  Force.direction (<[i := f]> h !!! r) = Force.direction (h !!! r).
Proof.
  intros Hdir. destruct (decide (i < length h)%nat) as [Hi|Hi].
  - destruct (decide (i = r)) as [->|Hne].
    + now rewrite list_lookup_total_insert_eq by exact Hi.
    + now rewrite list_lookup_total_insert_ne by exact Hne.
  - now rewrite list_insert_ge by lia.
Qed.

(** [move] changes where a force is, never what it is. *)
Lemma move_keeps_directions (e : MouseEvent) (w : World) :
  forces (move FORCE_RADIUS e w) = forces w
  /\ emitted (move FORCE_RADIUS e w) = emitted w
  /\ forall force,
       Force.direction (deref (move FORCE_RADIUS e w) force)
       = Force.direction (deref w force).
Proof.
  unfold move.
  destruct (Scene.mouseStart (scene w)) as [start|]; [|now repeat split].
  destruct (Scene.mouseCurrent (scene w)) as [current|]; [|now repeat split].
  destruct (decide _); [|now repeat split].
  unfold drag. destruct (MouseCurrent.force current) as [dragged|];
    [|now repeat split].
  split; [reflexivity|]. split; [reflexivity|].
  intros force. now apply insert_same_direction.
Qed.

(** A step of the event loop either sends nothing and leaves the counts as
    they are, or sends exactly one notification, of the counts it leaves. *)
Lemma step_notifies (w w' : World) :
  step FORCE_RADIUS levels_length w w' ->
  (emitted w' = emitted w /\ countForces w' = countForces w)
  \/ emitted w' = emitted w ++ [countForces w'].
Proof.
  intros Hstep.
  destruct Hstep as [handle time _|width height _|k _|e _|e _|e _|_
                     |route message _|observer| | |p direction _|];
    try (left; split; reflexivity); try (right; reflexivity).
  - left. unfold tick.
    set (w1 := on_scene (SceneSet.previousTime (Some (time / 1000)))
                 (on_scene (SceneSet.frame None)
                           (cancelAnimationFrame handle w))).
    destruct (hit w1 && won w1); [split; reflexivity|].
    destruct (hit w1); split; reflexivity.
  - left. unfold key. destruct (decide _); split; reflexivity.
  - left. destruct (move_keeps_directions e w) as (Hf & He & Hd).
    split; [exact He|]. apply countForces_ext; [exact Hf|]. intros r _.
    apply Hd.
  - unfold up. destruct (hit w); [left; split; reflexivity|].
    destruct (Scene.mouseStart (scene w)) as [start|];
      [|left; split; reflexivity].
    destruct (decide (_ /\ _)); [left; split; reflexivity|].
    destruct (decide (_ = 2%Z)); [|left; split; reflexivity].
    destruct (gestureForce w) as [force|]; [|left; split; reflexivity].
    destruct (mouseOnForce _ _ _ _); [|left; split; reflexivity].
    unfold removeForce. destruct (indexOf force (forces w)) as [index|];
      [right; reflexivity|left; split; reflexivity].
  - left. unfold destroy.
    destruct (Scene.frame _) as [handle|]; [destruct (decide _)|];
      split; reflexivity.
Qed.

(** X2: in every world the scene can reach, the last force-count
    notification sent carries the counts of the collection as it is now:
    whatever changes the counts ([clear], [addForce], a removal) sends them,
    and nothing else ([tick], presses, drags, [reset], [destroy]) changes
    them. *)
Theorem notifications_up_to_date (w : World) :
  reachable FORCE_RADIUS levels_length w ->
  last (emitted w) = Some (countForces w).
Proof.
  induction 1 as [environment width height level _|w w' _ IH Hstep].
  - enough (H : emitted (construct environment width height level)
                = [countForces (construct environment width height level)])
      by now rewrite H.
    unfold construct. cbv zeta.
    set (w6 := addEventListener
                 (CanvasElement, "contextmenu", OnRightClick) _).
    unfold w6, addEventListener. reflexivity.
  - destruct (step_notifies w w' Hstep) as [[He Hc]|He].
    + now rewrite He, Hc.
    + rewrite He. apply last_snoc.
Qed.

End UpToDate.

Lemma notifications_up_to_date_witness :
  last (emitted (addForce 30 (Position.mk 10 10) (-1) demo_world))
  = Some (countForces
            (addForce 30 (Position.mk 10 10) (-1) demo_world)).
Proof.
  apply (notifications_up_to_date 30 3).
  apply (reachable_step 30 3 demo_world); [exact demo_reachable|].
  apply step_addForce. now right.
Defined.

Section Collection.

Variable FORCE_RADIUS : R.
Variable levels_length : Z.

Lemma indexOf_not_elem_of (x : ref) (l : list ref) :
  x ∉ l -> indexOf x l = None.
Proof.
  induction l as [|y l IH]; intros Hnotin; [reflexivity|].
  apply not_elem_of_cons in Hnotin. destruct Hnotin as [Hne Hnotin].
  cbn [indexOf]. rewrite decide_False by congruence.
  now rewrite (IH Hnotin).
Qed.

(** X3: in a world the scene can reach, [addForce] puts one new force
    object at the end of the collection, with the direction it was given and
    the position computed from the page position, the pixel ratio, the
    canvas and the pan; the forces already there are not touched, one
    notification is sent, and it counts one more force in the slot of the
    new direction.  Ball, mode and pan are as before. *)
Theorem addForce_appends (p : Position.t) (direction : Z) (w : World) :
  reachable FORCE_RADIUS levels_length w ->
  let w' := addForce FORCE_RADIUS p direction w in
  let created := length (heap w) in
  forces w' = forces w ++ [created]
  /\ (created ∉ forces w)
  /\ deref w' created
     = Force.mk
         (Position.x p * Host.devicePixelRatio (host w) + FORCE_RADIUS
          - Canvas.width (canvas w) / 2 - Position.x (center w))
         (- Position.y p * Host.devicePixelRatio (host w) - FORCE_RADIUS
          + Canvas.height (canvas w) / 2 - Position.y (center w))
         direction
  /\ (forall force, force ∈ forces w -> deref w' force = deref w force)
  /\ emitted w' = emitted w ++ [countForces w']
  /\ countForces w'
     = (if decide (direction = 1%Z)
        then (S (fst (countForces w)), snd (countForces w))
        else (fst (countForces w), S (snd (countForces w))))
  /\ ball w' = ball w /\ hit w' = hit w /\ center w' = center w.
Proof.
  intros Hreach w' created.
  destruct (reachable_refs_valid FORCE_RADIUS levels_length w Hreach)
    as (_ & Hbound & _).
  rewrite Forall_forall in Hbound.
  set (f := Force.mk
              (Position.x p * Host.devicePixelRatio (host w) + FORCE_RADIUS
               - Canvas.width (canvas w) / 2 - Position.x (center w))
              (- Position.y p * Host.devicePixelRatio (host w) - FORCE_RADIUS
               + Canvas.height (canvas w) / 2 - Position.y (center w))
              direction).
  assert (Hheap : heap w' = heap w ++ [f]) by reflexivity.
  assert (Hnew : deref w' created = f).
  { unfold deref. rewrite Hheap. unfold created.
    rewrite list_lookup_total_alt, list_lookup_middle by reflexivity.
    reflexivity. }
  assert (Hold : forall force, force ∈ forces w ->
                               deref w' force = deref w force).
  { intros force Hin. unfold deref. rewrite Hheap.
    apply lookup_total_app_l. now apply Hbound. }
  split; [reflexivity|]. split.
  { intros Hin. apply Hbound in Hin. unfold created in Hin. lia. }
  split; [exact Hnew|]. split; [exact Hold|]. split; [reflexivity|].
  split; [|repeat split].
  set (w0 := on_scene (SceneSet.forces (forces w)) w').
  assert (H0 : countForces w0 = countForces w).
  { apply countForces_ext; [reflexivity|].
    intros force Hin. change (deref w0 force) with (deref w' force).
    now rewrite Hold. }
  rewrite <- H0.
  change (countForces w')
    with (fold_left
            (fun remaining force =>
               if decide (Force.direction (deref w' force) = 1%Z)
               then (S (fst remaining), snd remaining)
               else (fst remaining, S (snd remaining)))
            (forces w ++ [created]) (0%nat, 0%nat)).
  rewrite fold_left_app. cbn [fold_left]. rewrite Hnew. cbn [Force.direction].
  reflexivity.
Qed.

(** X4: in a world the scene can reach, a secondary-button release over the
    force of the gesture, when that force is in the collection, takes out
    that force and no other: it is gone, every other force is still there,
    the collection is one shorter, no force object is changed, and the
    counts have gone down by one in the slot of its direction.  The gesture
    is over. *)
Theorem removal_takes_one_out (e : MouseEvent) (w : World)
    (start : MouseStart.t) (force : ref) :
  reachable FORCE_RADIUS levels_length w ->
  hit w = false ->
  Scene.mouseStart (scene w) = Some start ->
  MouseStart.button start = 2%Z ->
  gestureForce w = Some force ->
  mouseOnForce FORCE_RADIUS w (pointer w e) force = true ->
  force ∈ forces w ->
  let w' := up FORCE_RADIUS e w in
  (force ∉ forces w')
  /\ (forall other, other <> force -> other ∈ forces w' <-> other ∈ forces w)
  /\ S (length (forces w')) = length (forces w)
  /\ heap w' = heap w
  /\ countForces w
     = (if decide (Force.direction (deref w force) = 1%Z)
        then (S (fst (countForces w')), snd (countForces w'))
        else (fst (countForces w'), S (snd (countForces w'))))
  /\ Scene.mouseStart (scene w') = None
  /\ Scene.mouseCurrent (scene w') = None.
Proof.
  intros Hreach Hhit Hstart Hbutton Hforce Hon Hin w'.
  destruct (reachable_refs_valid FORCE_RADIUS levels_length w Hreach)
    as (Hnodup & _ & _).
  destruct (indexOf_elem_of force (forces w) Hin) as [index Hindex].
  pose proof (indexOf_lookup force (forces w) index Hindex) as Hlookup.
  assert (Hw' : w' = on_scene (SceneSet.mouseCurrent None)
                       (on_scene (SceneSet.mouseStart None)
                          (removeForce FORCE_RADIUS (pointer w e) force w))).
  { unfold w'.
    rewrite (up_secondary FORCE_RADIUS e w start Hhit Hstart Hbutton).
    now rewrite Hforce, Hon. }
  destruct (removeForce_found FORCE_RADIUS (pointer w e) force w index Hindex)
    as (Hf & Hh & _).
  assert (Hforces : forces w' = delete index (forces w))
    by (rewrite Hw'; exact Hf).
  assert (Hheap : heap w' = heap w) by (rewrite Hw'; exact Hh).
  assert (Hgone : force ∉ forces w')
    by (rewrite Hforces; now apply NoDup_delete_lookup).
  assert (Hderef : forall r, deref w' r = deref w r)
    by (intros r; unfold deref; now rewrite Hheap).
  assert (Hrest : forces w' = take index (forces w) ++ drop (S index) (forces w))
    by (rewrite Hforces; apply delete_take_drop).
  pose proof (take_drop_middle (forces w) index force Hlookup) as Hsplit.
  remember (take index (forces w)) as before eqn:Hbefore.
  remember (drop (S index) (forces w)) as after eqn:Hafter.
  clear Hbefore Hafter.
  split; [exact Hgone|].
  split.
  { intros other Hne. rewrite Hrest, <- Hsplit.
    rewrite !elem_of_app, elem_of_cons. intuition congruence. }
  split.
  { rewrite Hrest, <- Hsplit. rewrite !length_app. cbn [length]. lia. }
  split; [exact Hheap|].
  split; [|rewrite Hw'; split; reflexivity].
  rewrite (countForces_filter w), (countForces_filter w'). cbn [fst snd].
  rewrite Hrest, <- Hsplit.
  rewrite !filter_app, !length_app.
  rewrite !(list_filter_iff
              (fun r => Force.direction (deref w' r) = 1%Z)
              (fun r => Force.direction (deref w r) = 1%Z))
    by (intros r; now rewrite Hderef).
  rewrite !(list_filter_iff
              (fun r => Force.direction (deref w' r) <> 1%Z)
              (fun r => Force.direction (deref w r) <> 1%Z))
    by (intros r; now rewrite Hderef).
  destruct (decide (Force.direction (deref w force) = 1%Z)) as [Hd|Hd].
  - rewrite (filter_cons_True _ force _ Hd).
    rewrite (filter_cons_False
               (fun r => Force.direction (deref w r) <> 1%Z) force) by tauto.
    cbn [length]. f_equal; lia.
  - rewrite (filter_cons_False _ force _ Hd).
    rewrite (filter_cons_True
               (fun r => Force.direction (deref w r) <> 1%Z) force _ Hd).
    cbn [length]. f_equal; lia.
Qed.

End Collection.

Section Gestures.

Variable FORCE_RADIUS : R.
Variable levels_length : Z.

(** X5: in a world the scene can reach and in setup mode, a secondary-button
    press that finds a force under the pointer, followed by a release at the
    same place, removes exactly that force: it is gone from the collection,
    the collection is one shorter, one notification is sent, of the counts
    after the removal, and the gesture is over. *)
Theorem secondary_click_removes (e : MouseEvent) (w : World) (force : ref) :
  reachable FORCE_RADIUS levels_length w ->
  hit w = false ->
  button e = 2%Z ->
  find (mouseOnForce FORCE_RADIUS w (pointer w e)) (forces w) = Some force ->
  let w' := up FORCE_RADIUS e (down FORCE_RADIUS e w) in
  (force ∉ forces w')
  /\ S (length (forces w')) = length (forces w)
  /\ emitted w' = emitted w ++ [countForces w']
  /\ Scene.mouseStart (scene w') = None
  /\ Scene.mouseCurrent (scene w') = None.
Proof.
  intros Hreach Hhit Hbutton Hfind w'.
  destruct (reachable_refs_valid FORCE_RADIUS levels_length w Hreach)
    as (Hnodup & _ & _).
  set (w1 := down FORCE_RADIUS e w).
  assert (Hforce : gestureForce w1 = Some force)
    by (etransitivity; [|exact Hfind]; reflexivity).
  apply find_some in Hfind. destruct Hfind as [Hin Hon].
  apply list_elem_of_In in Hin.
  destruct (indexOf_elem_of force (forces w) Hin) as [index Hindex].
  pose proof (indexOf_lookup force (forces w) index Hindex) as Hlookup.
  assert (Hw' : w' = on_scene (SceneSet.mouseCurrent None)
                       (on_scene (SceneSet.mouseStart None)
                          (removeForce FORCE_RADIUS (pointer w e) force w1))).
  { unfold w'. fold w1.
    rewrite (up_secondary FORCE_RADIUS e w1
               (MouseStart.mk (Position.x (pointer w e))
                              (Position.y (pointer w e)) (button e))
               Hhit eq_refl Hbutton).
    rewrite Hforce. change (pointer w1 e) with (pointer w e).
    change (mouseOnForce FORCE_RADIUS w1) with (mouseOnForce FORCE_RADIUS w).
    now rewrite Hon. }
  destruct (removeForce_found FORCE_RADIUS (pointer w e) force w1 index Hindex)
    as (Hf & _ & He).
  assert (Hforces : forces w' = delete index (forces w))
    by (rewrite Hw'; exact Hf).
  split; [rewrite Hforces; now apply NoDup_delete_lookup|].
  split.
  { rewrite Hforces, length_delete by (now exists force).
    apply lookup_lt_Some in Hlookup. lia. }
  split; [rewrite Hw'; exact He|]. rewrite Hw'. split; reflexivity.
Qed.

(** What [up] can do to the collection. *)
Lemma up_same_collection (e : MouseEvent) (w : World) :
  (forall force, gestureForce w = Some force -> force ∉ forces w) ->
  forces (up FORCE_RADIUS e w) = forces w
  /\ heap (up FORCE_RADIUS e w) = heap w
  /\ emitted (up FORCE_RADIUS e w) = emitted w.
Proof.
  intros Hout. unfold up. destruct (hit w); [now repeat split|].
  destruct (Scene.mouseStart (scene w)) as [start|]; [|now repeat split].
  destruct (decide (_ /\ _)); [now repeat split|].
  destruct (decide (_ = 2%Z)); [|now repeat split].
  destruct (gestureForce w) as [force|]; [|now repeat split].
  destruct (mouseOnForce _ _ _ _); [|now repeat split].
  unfold removeForce.
  rewrite (indexOf_not_elem_of force (forces w)) by (now apply Hout).
  now repeat split.
Qed.

(** X6: [clear] makes new force objects, so the force a gesture in progress
    holds is none of them: in a world the scene can reach, a pointer-up that
    follows [clear] removes nothing and sends nothing, wherever the pointer
    is and whichever button was pressed. *)
Theorem clear_detaches_gesture (e : MouseEvent) (w : World) :
  reachable FORCE_RADIUS levels_length w ->
  (forall force, gestureForce (clear w) = Some force ->
                 force ∉ forces (clear w))
  /\ forces (up FORCE_RADIUS e (clear w)) = forces (clear w)
  /\ heap (up FORCE_RADIUS e (clear w)) = heap (clear w)
  /\ emitted (up FORCE_RADIUS e (clear w)) = emitted (clear w).
Proof.
  intros Hreach.
  destruct (reachable_refs_valid FORCE_RADIUS levels_length w Hreach)
    as (_ & _ & Hgesture).
  assert (Hout : forall force, gestureForce (clear w) = Some force ->
                               force ∉ forces (clear w)).
  { intros force Hforce Hin.
    change (gestureForce (clear w)) with (gestureForce w) in Hforce.
    apply Hgesture in Hforce.
    unfold clear, allocate in Hin. cbn in Hin.
    apply elem_of_seq in Hin. lia. }
  split; [exact Hout|]. now apply up_same_collection.
Qed.

(** X7: a tick changes the ball, the time of the previous frame and the
    frame handle, and on a win the alerts and the navigation; it never
    touches the mode, the forces, the pan, the gesture, the hole, the walls,
    the stars, the level, the notifications, the listeners or the canvas. *)
Theorem tick_touches_only_ball_and_schedule (time : R) (w : World) :
  hit (tick levels_length time w) = hit w
  /\ forces (tick levels_length time w) = forces w
  /\ heap (tick levels_length time w) = heap w
  /\ center (tick levels_length time w) = center w
  /\ Scene.mouseStart (scene (tick levels_length time w))
     = Scene.mouseStart (scene w)
  /\ Scene.mouseCurrent (scene (tick levels_length time w))
     = Scene.mouseCurrent (scene w)
  /\ Scene.hole (scene (tick levels_length time w)) = Scene.hole (scene w)
  /\ Scene.walls (scene (tick levels_length time w)) = Scene.walls (scene w)
  /\ Scene.stars (scene (tick levels_length time w)) = Scene.stars (scene w)
  /\ Scene.level (scene (tick levels_length time w)) = Scene.level (scene w)
  /\ emitted (tick levels_length time w) = emitted w
  /\ observers (tick levels_length time w) = observers w
  /\ Host.listeners (host (tick levels_length time w))
     = Host.listeners (host w)
  /\ canvas (tick levels_length time w) = canvas w
  /\ Ball.radius (ball (tick levels_length time w)) = Ball.radius (ball w)
  /\ Scene.previousTime (scene (tick levels_length time w))
     = Some (time / 1000).
Proof.
  assert (Hradius : forall (v : World) delta b,
            Ball.radius (fold_left (accelerate delta v) (forces v)
                           (fold_left (collide v) (Scene.walls (scene v)) b))
            = Ball.radius b).
  { intros v delta b.
    assert (Hwalls : forall walls b0,
              Ball.radius (fold_left (collide v) walls b0) = Ball.radius b0).
    { induction walls as [|wall walls IH]; intros b0; [reflexivity|].
      cbn [fold_left]. rewrite IH. unfold collide.
      destruct (collision _ _); reflexivity. }
    assert (Hforces : forall l b0,
              Ball.radius (fold_left (accelerate delta v) l b0)
              = Ball.radius b0).
    { induction l as [|r l IH]; intros b0; [reflexivity|].
      cbn [fold_left]. now rewrite IH. }
    now rewrite Hforces, Hwalls. }
  unfold tick.
  set (w1 := on_scene (SceneSet.previousTime (Some (time / 1000)))
               (on_scene (SceneSet.frame None) w)).
  destruct (hit w1 && won w1); [repeat split|].
  destruct (hit w1) eqn:Hhit; repeat split; try exact Hhit.
  cbn. apply (Hradius w1).
Qed.

End Gestures.

Section Motion.

Variable FORCE_RADIUS : R.
Variable levels_length : Z.

(** X8: the mode changes in two ways only.  It goes from setup to motion
    by a primary-button release at the press position, and from motion to
    setup by [reset], [clear] or the space key; no tick, press, drag,
    removal, [addForce] or [destroy] ever changes it. *)
Theorem mode_changes_only_by_shot_or_reset (w w' : World) :
  step FORCE_RADIUS levels_length w w' ->
  hit w' <> hit w ->
  (hit w = false /\ hit w' = true
   /\ exists e start,
        w' = up FORCE_RADIUS e w
        /\ Scene.mouseStart (scene w) = Some start
        /\ MouseStart.button start = 0%Z
        /\ Position.x (pointer w e) = MouseStart.x start
        /\ Position.y (pointer w e) = MouseStart.y start)
  \/ (hit w = true /\ hit w' = false
      /\ (w' = reset w \/ w' = clear w \/ w' = key " " w)).
Proof.
  intros Hstep Hchange.
  destruct Hstep as [handle time _|width height _|k _|e _|e _|e _|_
                     |route message _|observer| | |p direction _|];
    try (exfalso; apply Hchange; reflexivity).
  - exfalso. apply Hchange. now rewrite (tick_hit levels_length).
  - unfold key in *. destruct (decide (k = " ")) as [->|Hk];
      [|exfalso; now apply Hchange].
    right. destruct (hit w) eqn:Hhit; [|exfalso; now apply Hchange].
    split; [reflexivity|]. split; [reflexivity|].
    right. right. unfold key. now rewrite decide_True.
  - exfalso. apply Hchange. apply (move_hit_ball FORCE_RADIUS).
  - left. destruct (hit w) eqn:Hhit.
    { exfalso. apply Hchange. unfold up. now rewrite Hhit. }
    split; [reflexivity|].
    destruct (Scene.mouseStart (scene w)) as [start|] eqn:Hstart.
    2:{ exfalso. apply Hchange. unfold up. now rewrite Hhit, Hstart. }
    destruct (decide (MouseStart.button start = 0%Z
                      /\ Position.x (pointer w e) = MouseStart.x start
                      /\ Position.y (pointer w e) = MouseStart.y start))
      as [(Hb & Hx & Hy)|Hno].
    + split.
      * now rewrite (up_shoots FORCE_RADIUS e w start Hhit Hstart Hb Hx Hy).
      * exists e, start. auto.
    + exfalso. apply Hchange. unfold up. rewrite Hhit, Hstart.
      rewrite decide_False by exact Hno.
      destruct (decide (_ = 2%Z)); [|exact Hhit].
      destruct (gestureForce w) as [force|]; [|exact Hhit].
      destruct (mouseOnForce _ _ _ _); [|exact Hhit].
      unfold removeForce. destruct (indexOf _ _); exact Hhit.
  - right. destruct (hit w) eqn:Hhit; [|exfalso; now apply Hchange]. auto.
  - right. destruct (hit w) eqn:Hhit; [|exfalso; now apply Hchange]. auto.
  - exfalso. apply Hchange. unfold destroy.
    destruct (Scene.frame _) as [handle|]; [destruct (decide _)|];
      reflexivity.
Qed.







End Motion.

Section Scheduling.

Variable FORCE_RADIUS : R.
Variable levels_length : Z.

Lemma step_few_frames (w w' : World) :
  step FORCE_RADIUS levels_length w w' ->
  frame_tracked w ->
  (length (Host.frames (host w)) <= 1)%nat ->
  (length (Host.frames (host w')) <= 1)%nat.
Proof.
  intros Hstep (Hpending & _ & _) Hfew.
  assert (Hsame : schedule w' = schedule w ->
                  (length (Host.frames (host w')) <= 1)%nat).
  { intros Hs. destruct (schedule_inv w' _ _ _ Hs) as (-> & _). exact Hfew. }
  destruct Hstep as [handle time Hin|width height _|k _|e _|e _|e _|_
                     |route message _|observer| | |p direction _|];
    try (apply Hsame; reflexivity).
  - set (w0 := cancelAnimationFrame handle w).
    assert (Hempty : Host.frames (host w0) = []).
    { unfold w0, cancelAnimationFrame. cbn.
      apply filter_none. intros x Hx Hne. apply Hne.
      pose proof (Hpending _ Hin). pose proof (Hpending _ Hx). congruence. }
    destruct (schedule_tick levels_length time w0) as [Hs|Hs];
      destruct (schedule_inv _ _ _ _ Hs) as (-> & _); rewrite Hempty; cbn; lia.
  - apply Hsame. unfold key. case_match; reflexivity.
  - apply Hsame. apply schedule_move.
  - apply Hsame. apply schedule_up.
  - rewrite destroy_frames.
    destruct (Scene.frame (scene w)) as [handle|]; [|exact Hfew].
    destruct (decide _); [exact Hfew|].
    pose proof (length_filter (fun h => h <> handle) (Host.frames (host w))).
    lia.
Qed.

(** X11: in every world the scene can reach at most one frame callback is
    pending; it is the one whose handle [this.frame] holds, and that handle
    is not 0, so the test [if (this.frame)] of [destroy] never skips a
    pending frame. *)
Theorem one_frame_pending (w : World) :
  reachable FORCE_RADIUS levels_length w ->
  (length (Host.frames (host w)) <= 1)%nat
  /\ forall handle,
       handle ∈ Host.frames (host w) ->
       Scene.frame (scene w) = Some handle /\ handle <> 0%nat.
Proof.
  intros Hreach.
  pose proof (reachable_frame_tracked FORCE_RADIUS levels_length w Hreach)
    as Htracked.
  split.
  - induction Hreach as [environment width height level (_ & Hf & _)
                        |w w' Hreach IH Hstep].
    + destruct (schedule_inv _ _ _ _
                  (construct_schedule environment width height level))
        as (-> & _).
      rewrite Hf. cbn. lia.
    + apply (step_few_frames w w' Hstep).
      * now apply (reachable_frame_tracked FORCE_RADIUS levels_length).
      * apply IH.
        now apply (reachable_frame_tracked FORCE_RADIUS levels_length).
  - destruct Htracked as (Hpending & Hnonzero & _).
    intros handle Hin. pose proof (Hpending handle Hin) as Hframe.
    split; [exact Hframe|]. now apply Hnonzero.
Qed.

Lemma reaches_no_frame (w w' : World) :
  reaches FORCE_RADIUS levels_length w w' ->
  Host.frames (host w) = [] -> Host.frames (host w') = [].
Proof.
  induction 1 as [|w' w'' _ IH Hstep]; intros Hnone; [exact Hnone|].
  apply (no_frame_stays FORCE_RADIUS levels_length w' w'' Hstep).
  now apply IH.
Qed.

(** X12: a win ends the loop for good.  When the frame callback of a
    reachable world runs in motion mode with the ball inside the hole, it
    requests no frame, and whatever happens afterwards (a [reset], a
    [clear], pointer and key events) none is ever requested again: the
    scene is not ticked any more. *)
Theorem win_stops_the_loop (handle : nat) (time : R) (w w' : World) :
  reachable FORCE_RADIUS levels_length w ->
  handle ∈ Host.frames (host w) ->
  hit w = true ->
  won w = true ->
  reaches FORCE_RADIUS levels_length
          (tick levels_length time (cancelAnimationFrame handle w)) w' ->
  Host.frames (host w') = [].
Proof.
  intros Hreach Hin Hhit Hwon Hlater.
  apply (reaches_no_frame _ w' Hlater).
  destruct (reachable_frame_tracked FORCE_RADIUS levels_length w Hreach)
    as (Hpending & _ & _).
  set (w0 := cancelAnimationFrame handle w).
  assert (Hempty : Host.frames (host w0) = []).
  { unfold w0, cancelAnimationFrame. cbn.
    apply filter_none. intros x Hx Hne. apply Hne.
    pose proof (Hpending _ Hin). pose proof (Hpending _ Hx). congruence. }
  unfold tick.
  set (w1 := on_scene (SceneSet.previousTime (Some (time / 1000)))
               (on_scene (SceneSet.frame None) w0)).
  change (hit w1) with (hit w). change (won w1) with (won w).
  rewrite Hhit, Hwon. cbn [andb]. exact Hempty.
Qed.

Lemma step_listeners (w w' : World) :
  step FORCE_RADIUS levels_length w w' ->
  forall l, l ∈ Host.listeners (host w') -> l ∈ Host.listeners (host w).
Proof.
  intros Hstep l.
  destruct Hstep as [handle time _|width height _|k _|e _|e _|e _|_
                     |route message _|observer| | |p direction _|];
    try (intros Hin; exact Hin).
  - unfold tick.
    set (w1 := on_scene (SceneSet.previousTime (Some (time / 1000)))
                 (on_scene (SceneSet.frame None)
                           (cancelAnimationFrame handle w))).
    destruct (hit w1 && won w1); [intros Hin; exact Hin|].
    destruct (hit w1); intros Hin; exact Hin.
  - unfold key. case_match; intros Hin; exact Hin.
  - unfold move, drag. repeat case_match; intros Hin; exact Hin.
  - unfold up, shoot, removeForce. repeat case_match; intros Hin; exact Hin.
  - rewrite destroy_listeners. intros Hin.
    now apply list_elem_of_filter in Hin.
Qed.

(** X13: [destroy] changes the listeners, the pending frame and the
    observers of the dispatcher, and nothing else: it only takes listeners
    away, the scene's own fields, the force objects, the notifications sent
    and the canvas are as before, and a second [destroy] changes nothing at
    all. *)
Theorem destroy_only_unsubscribes (w : World) :
  scene (destroy w) = scene w
  /\ heap (destroy w) = heap w
  /\ emitted (destroy w) = emitted w
  /\ canvas (destroy w) = canvas w
  /\ observers (destroy w) = []
  /\ Host.listeners (host (destroy w))
     = filter (fun l => l ∉ unregistered) (Host.listeners (host w))
  /\ (forall handle, handle ∈ Host.frames (host (destroy w)) ->
                     handle ∈ Host.frames (host w))
  /\ destroy (destroy w) = destroy w.
Proof.
  assert (Hrest : scene (destroy w) = scene w
                  /\ heap (destroy w) = heap w
                  /\ emitted (destroy w) = emitted w
                  /\ canvas (destroy w) = canvas w
                  /\ observers (destroy w) = []).
  { unfold destroy.
    destruct (Scene.frame _) as [handle|]; [destruct (decide _)|];
      repeat split. }
  destruct Hrest as (Hs & Hh & He & Hc & Ho).
  repeat (split; [assumption|]).
  split; [apply destroy_listeners|]. split; [|apply destroy_idempotent].
  intros handle. rewrite destroy_frames.
  destruct (Scene.frame (scene w)) as [h|]; [|auto].
  destruct (decide _); [auto|]. intros Hin.
  now apply list_elem_of_filter in Hin.
Qed.

(** X14: after [destroy], in a world the scene can reach, no frame callback
    is pending and none of the five listeners it takes away is registered,
    and this stays so whatever happens next: the tick and the resize, key
    and pointer handlers of the scene never run again. *)
Theorem destroyed_scene_stays_still (w w' : World) :
  reachable FORCE_RADIUS levels_length w ->
  reaches FORCE_RADIUS levels_length (destroy w) w' ->
  Host.frames (host w') = []
  /\ forall l, l ∈ unregistered -> l ∉ Host.listeners (host w').
Proof.
  intros Hreach Hlater. split.
  - apply (reaches_no_frame _ w' Hlater).
    now apply (destroy_cancels_frame FORCE_RADIUS levels_length).
  - intros l Hl.
    induction Hlater as [|w' w'' _ IH Hstep].
    + rewrite destroy_listeners. intros Hin.
      apply list_elem_of_filter in Hin. now destruct Hin.
    + intros Hin. apply IH. now apply (step_listeners w' w'' Hstep).
Qed.

End Scheduling.

Section Pointer.

Variable FORCE_RADIUS : R.

Lemma find_first {A : Type} (f : A -> bool) (l : list A) (x : A) :
  find f l = Some x ->
  exists i, l !! i = Some x
            /\ f x = true
            /\ forall j y, (j < i)%nat -> l !! j = Some y -> f y = false.
Proof.
  induction l as [|a l IH]; cbn [find]; [discriminate|].
  destruct (f a) eqn:Hfa.
  - intros [= <-]. exists 0%nat. split; [reflexivity|]. split; [exact Hfa|].
    intros j y Hj. lia.
  - intros Hfind. destruct (IH Hfind) as (i & Hi & Hx & Hbefore).
    exists (S i). split; [exact Hi|]. split; [exact Hx|].
    intros [|j] y Hj; cbn.
    + now intros [= <-].
    + apply Hbefore. lia.
Qed.

Lemma find_nothing {A : Type} (f : A -> bool) (l : list A) :
  find f l = None -> forall x, x ∈ l -> f x = false.
Proof.
  intros Hnone x Hin. apply list_elem_of_In in Hin.
  exact (find_none f l Hnone x Hin).
Qed.

(** X15: a pointer-down records the press (position and button) and picks
    the force of the gesture: the first force of the collection that lies
    within [FORCE_RADIUS] of the pointer, or none when no force does.  It
    changes neither ball, mode, pan, forces nor host, and sends nothing. *)
Theorem down_picks_first_force (e : MouseEvent) (w : World) :
  Scene.mouseStart (scene (down FORCE_RADIUS e w))
  = Some (MouseStart.mk (Position.x (pointer w e)) (Position.y (pointer w e))
                        (button e))
  /\ (forall force,
        gestureForce (down FORCE_RADIUS e w) = Some force ->
        exists i, forces w !! i = Some force
                  /\ mouseOnForce FORCE_RADIUS w (pointer w e) force = true
                  /\ forall j other,
                       (j < i)%nat -> forces w !! j = Some other ->
                       mouseOnForce FORCE_RADIUS w (pointer w e) other = false)
  /\ (gestureForce (down FORCE_RADIUS e w) = None ->
      forall force, force ∈ forces w ->
                    mouseOnForce FORCE_RADIUS w (pointer w e) force = false)
  /\ ball (down FORCE_RADIUS e w) = ball w
  /\ hit (down FORCE_RADIUS e w) = hit w
  /\ center (down FORCE_RADIUS e w) = center w
  /\ forces (down FORCE_RADIUS e w) = forces w
  /\ heap (down FORCE_RADIUS e w) = heap w
  /\ host (down FORCE_RADIUS e w) = host w
  /\ emitted (down FORCE_RADIUS e w) = emitted w.
Proof.
  split; [reflexivity|]. split; [|split; [|repeat split]].
  - intros force Hforce.
    change (find (mouseOnForce FORCE_RADIUS w (pointer w e)) (forces w)
            = Some force) in Hforce.
    now apply find_first.
  - intros Hnone.
    change (find (mouseOnForce FORCE_RADIUS w (pointer w e)) (forces w)
            = None) in Hnone.
    now apply find_nothing.
Qed.

(** X16: in setup mode, a release that is neither a click of the primary
    button (a release at the press position) nor a release of the secondary
    button does nothing but end the gesture: ball, mode, pan, forces, host
    and notifications are as before, and [mouseStart] and [mouseCurrent] are
    cleared.  So a primary-button drag never shoots. *)
Theorem release_after_drag_only_ends_gesture (e : MouseEvent) (w : World)
    (start : MouseStart.t) :
  hit w = false ->
  Scene.mouseStart (scene w) = Some start ->
  MouseStart.button start <> 2%Z ->
  ~ (MouseStart.button start = 0%Z
     /\ Position.x (pointer w e) = MouseStart.x start
     /\ Position.y (pointer w e) = MouseStart.y start) ->
  up FORCE_RADIUS e w
  = on_scene (SceneSet.mouseCurrent None)
      (on_scene (SceneSet.mouseStart None) w)
  /\ ball (up FORCE_RADIUS e w) = ball w
  /\ hit (up FORCE_RADIUS e w) = false
  /\ center (up FORCE_RADIUS e w) = center w
  /\ forces (up FORCE_RADIUS e w) = forces w
  /\ heap (up FORCE_RADIUS e w) = heap w
  /\ host (up FORCE_RADIUS e w) = host w
  /\ emitted (up FORCE_RADIUS e w) = emitted w
  /\ Scene.mouseStart (scene (up FORCE_RADIUS e w)) = None
  /\ Scene.mouseCurrent (scene (up FORCE_RADIUS e w)) = None.
Proof.
  intros Hhit Hstart Hsecondary Hclick.
  assert (Hup : up FORCE_RADIUS e w
                = on_scene (SceneSet.mouseCurrent None)
                    (on_scene (SceneSet.mouseStart None) w)).
  { unfold up. rewrite Hhit, Hstart.
    rewrite decide_False by exact Hclick.
    now rewrite decide_False by exact Hsecondary. }
  rewrite Hup. repeat split. exact Hhit.
Qed.

End Pointer.

Section Moves.

Variable FORCE_RADIUS : R.

(** What [move] leaves behind depends on the heap and pan it computes. *)
Lemma move_primary (e : MouseEvent) (w : World) (start : MouseStart.t)
    (current : MouseCurrent.t) :
  Scene.mouseStart (scene w) = Some start ->
  MouseStart.button start = 0%Z ->
  Scene.mouseCurrent (scene w) = Some current ->
  move FORCE_RADIUS e w
  = updateCursor FORCE_RADIUS (pointer w e)
      (on_scene
         (SceneSet.mouseCurrent
            (Some (MouseCurrent.mk (Position.x (pointer w e))
                                   (Position.y (pointer w e))
                                   (MouseCurrent.force current))))
         (drag (pointer w e) current w)).
Proof.
  intros Hstart Hbutton Hcurrent. unfold move.
  rewrite Hstart, Hcurrent. now rewrite decide_True by exact Hbutton.
Qed.

Lemma move_idle (e : MouseEvent) (w : World) :
  (forall start current,
     Scene.mouseStart (scene w) = Some start ->
     Scene.mouseCurrent (scene w) = Some current ->
     MouseStart.button start <> 0%Z) ->
  move FORCE_RADIUS e w = updateCursor FORCE_RADIUS (pointer w e) w.
Proof.
  intros Hidle. unfold move.
  destruct (Scene.mouseStart (scene w)) as [start|]; [|reflexivity].
  destruct (Scene.mouseCurrent (scene w)) as [current|]; [|reflexivity].
  now rewrite decide_False by (now apply (Hidle start current)).
Qed.

End Moves.

Section Drag.

Variable FORCE_RADIUS : R.

(** X18: a move with the primary button held changes one thing.  With a
    force under the gesture that force is moved by the pointer's
    displacement ([y] against it), its direction kept, and neither another
    force nor the pan changes; with none the pan is moved by the
    displacement and no force changes.  Either way the collection, the ball,
    the mode and the notifications are as before, and the gesture remembers
    the new pointer position. *)
Theorem primary_move_drags_or_pans (e : MouseEvent) (w : World)
    (start : MouseStart.t) (current : MouseCurrent.t) :
  Scene.mouseStart (scene w) = Some start ->
  MouseStart.button start = 0%Z ->
  Scene.mouseCurrent (scene w) = Some current ->
  let w' := move FORCE_RADIUS e w in
  let dx := Position.x (pointer w e) - MouseCurrent.x current in
  let dy := Position.y (pointer w e) - MouseCurrent.y current in
  ball w' = ball w /\ hit w' = hit w /\ forces w' = forces w
  /\ emitted w' = emitted w
  /\ length (heap w') = length (heap w)
  /\ Scene.mouseCurrent (scene w')
     = Some (MouseCurrent.mk (Position.x (pointer w e))
                             (Position.y (pointer w e))
                             (MouseCurrent.force current))
  /\ match MouseCurrent.force current with
     | Some force =>
         center w' = center w
         /\ (forall other, other <> force -> deref w' other = deref w other)
         /\ ((force < length (heap w))%nat ->
             deref w' force
             = Force.mk (Force.x (deref w force) + dx)
                        (Force.y (deref w force) - dy)
                        (Force.direction (deref w force)))
     | None =>
         heap w' = heap w
         /\ center w'
            = Position.mk (Position.x (center w) + dx)
                          (Position.y (center w) - dy)
     end.
Proof.
  intros Hstart Hbutton Hcurrent w' dx dy. unfold w'.
  rewrite (move_primary FORCE_RADIUS e w start current Hstart Hbutton Hcurrent).
  unfold drag. destruct (MouseCurrent.force current) as [force|].
  - repeat split.
    + apply length_insert.
    + intros other Hne. unfold deref. cbn [heap updateCursor setCursor on_host
        on_scene set_heap].
      now rewrite list_lookup_total_insert_ne by congruence.
    + intros Hin. unfold deref at 1. cbn [heap updateCursor setCursor on_host
        on_scene set_heap].
      now rewrite list_lookup_total_insert_eq by exact Hin.
  - repeat split.
Qed.

(** X19: a move while no button is held, or while a button other than the
    primary one is held, changes the cursor and nothing else: no force and
    no pan moves, so a force stays where it was between a secondary press
    and its release. *)
Theorem idle_move_changes_only_cursor (e : MouseEvent) (w : World) :
  (forall start current,
     Scene.mouseStart (scene w) = Some start ->
     Scene.mouseCurrent (scene w) = Some current ->
     MouseStart.button start <> 0%Z) ->
  scene (move FORCE_RADIUS e w) = scene w
  /\ heap (move FORCE_RADIUS e w) = heap w
  /\ emitted (move FORCE_RADIUS e w) = emitted w
  /\ observers (move FORCE_RADIUS e w) = observers w
  /\ Host.listeners (host (move FORCE_RADIUS e w)) = Host.listeners (host w)
  /\ Host.frames (host (move FORCE_RADIUS e w)) = Host.frames (host w)
  /\ Canvas.width (canvas (move FORCE_RADIUS e w)) = Canvas.width (canvas w)
  /\ Canvas.height (canvas (move FORCE_RADIUS e w)) = Canvas.height (canvas w)
  /\ Canvas.cursor (canvas (move FORCE_RADIUS e w))
     = (if existsb (mouseOnForce FORCE_RADIUS w (pointer w e)) (forces w)
        then "move" else "").
Proof.
  intros Hidle. rewrite (move_idle FORCE_RADIUS e w Hidle). repeat split.
Qed.

End Drag.

(** * The further properties on the example worlds *)

Lemma demo_listeners :
  Host.listeners (host demo_world)
  = unregistered ++ [(CanvasElement, "contextmenu", OnRightClick)].
Proof. reflexivity. Qed.

Lemma demo_pressed_reachable : reachable 30 3 demo_pressed.
Proof.
  apply (reachable_step 30 3 demo_world); [exact demo_reachable|].
  apply step_down. rewrite demo_listeners. unfold unregistered.
  apply elem_of_app. left. do 2 apply list_elem_of_further.
  apply list_elem_of_here.
Qed.

Lemma demo_aimed_reachable : reachable 30 3 demo_aimed.
Proof.
  apply (reachable_step 30 3 demo_world); [exact demo_reachable|].
  apply step_down. rewrite demo_listeners. unfold unregistered.
  apply elem_of_app. left. do 2 apply list_elem_of_further.
  apply list_elem_of_here.
Qed.

Lemma demo_find_first_force :
  find (mouseOnForce 30 demo_world (pointer demo_world demo_press))
       (forces demo_world) = Some 0%nat.
Proof.
  change (forces demo_world) with [0%nat; 1%nat]. cbn [find].
  unfold demo_press. rewrite demo_pointer by reflexivity.
  rewrite demo_on_force; [reflexivity..|]. project. lra.
Qed.

Lemma demo_release_on_force :
  mouseOnForce 30 demo_pressed (pointer demo_pressed demo_release) 0%nat
  = true.
Proof.
  unfold demo_release. rewrite demo_pointer by reflexivity.
  apply demo_on_force; [reflexivity..|]. project. lra.
Qed.

Lemma addForce_appends_witness :
  forces (addForce 30 (Position.mk 10 10) (-1) demo_world)
  = [0%nat; 1%nat; 2%nat]
  /\ countForces (addForce 30 (Position.mk 10 10) (-1) demo_world)
     = (2%nat, 1%nat).
Proof.
  destruct (addForce_appends 30 3 (Position.mk 10 10) (-1) demo_world
              demo_reachable) as (Hforces & _ & _ & _ & _ & Hcounts & _).
  split; [exact Hforces|exact Hcounts].
Defined.

Lemma removal_takes_one_out_witness :
  (0%nat ∉ forces (up 30 demo_release demo_pressed))
  /\ S (length (forces (up 30 demo_release demo_pressed)))
     = length (forces demo_pressed)
  /\ heap (up 30 demo_release demo_pressed) = heap demo_pressed.
Proof.
  destruct (removal_takes_one_out 30 3 demo_release demo_pressed
              (MouseStart.mk 40 100 2) 0%nat demo_pressed_reachable eq_refl
              demo_pressed_start eq_refl demo_pressed_force
              demo_release_on_force)
    as (Hgone & _ & Hlength & Hheap & _).
  - apply list_elem_of_here.
  - split; [exact Hgone|]. split; [exact Hlength|exact Hheap].
Defined.

Lemma secondary_click_removes_witness :
  (0%nat ∉ forces (up 30 demo_press (down 30 demo_press demo_world)))
  /\ S (length (forces (up 30 demo_press (down 30 demo_press demo_world))))
     = length (forces demo_world).
Proof.
  destruct (secondary_click_removes 30 3 demo_press demo_world 0%nat
              demo_reachable eq_refl eq_refl demo_find_first_force)
    as (Hgone & Hlength & _).
  split; [exact Hgone|exact Hlength].
Defined.

Lemma gestureForce_clear (w : World) : gestureForce (clear w) = gestureForce w.
Proof. reflexivity. Qed.

Lemma clear_detaches_gesture_witness :
  gestureForce (clear demo_pressed) = Some 0%nat
  /\ forces (up 30 demo_release (clear demo_pressed))
     = forces (clear demo_pressed)
  /\ emitted (up 30 demo_release (clear demo_pressed))
     = emitted (clear demo_pressed).
Proof.
  split.
  - rewrite gestureForce_clear. exact demo_pressed_force.
  - destruct (clear_detaches_gesture 30 3 demo_release demo_pressed
                demo_pressed_reachable) as (_ & Hforces & _ & Hemitted).
    split; [exact Hforces|exact Hemitted].
Defined.

Lemma mode_changes_only_by_shot_or_reset_witness :
  hit demo_aimed = false
  /\ hit demo_shot = true
  /\ exists e, demo_shot = up 30 e demo_aimed.
Proof.
  split; [reflexivity|]. split; [exact demo_shot_hit|].
  destruct (mode_changes_only_by_shot_or_reset 30 3 demo_aimed demo_shot)
    as [(_ & _ & e & start & Hup & _)|(Hmotion & _)].
  - apply step_up.
    change (Host.listeners (host demo_aimed))
      with (Host.listeners (host demo_world)).
    rewrite demo_listeners. unfold unregistered.
    apply elem_of_app. left. do 4 apply list_elem_of_further.
    apply list_elem_of_here.
  - rewrite demo_shot_hit. change (hit demo_aimed) with false. discriminate.
  - now exists e.
  - change (hit demo_aimed) with false in Hmotion. discriminate.
Defined.





Lemma one_frame_pending_witness :
  (length (Host.frames (host demo_world)) <= 1)%nat
  /\ Scene.frame (scene demo_world) = Some 1%nat.
Proof.
  destruct (one_frame_pending 30 3 demo_world demo_reachable)
    as (Hfew & Hframe).
  split; [exact Hfew|].
  assert (Hin : 1%nat ∈ Host.frames (host demo_world))
    by (rewrite demo_world_eq; apply list_elem_of_here).
  destruct (Hframe 1%nat Hin) as (Hone & _). exact Hone.
Defined.

Lemma easy_listeners :
  Host.listeners (host easy_world)
  = unregistered ++ [(CanvasElement, "contextmenu", OnRightClick)].
Proof. reflexivity. Qed.

Lemma easy_shot_eq :
  easy_shot
  = on_scene (SceneSet.mouseCurrent None)
      (on_scene (SceneSet.mouseStart None)
         (shoot (pointer easy_aimed demo_aim) easy_aimed)).
Proof.
  exact (up_shoots 30 demo_aim easy_aimed
           (MouseStart.mk (Position.x (pointer easy_world demo_aim))
                          (Position.y (pointer easy_world demo_aim)) 0)
           eq_refl eq_refl eq_refl eq_refl eq_refl).
Qed.

Lemma easy_shot_reachable : reachable 30 3 easy_shot.
Proof.
  apply (reachable_step 30 3 easy_aimed).
  - apply (reachable_step 30 3 easy_world).
    + apply reachable_construct. repeat split; cbn; lia.
    + apply step_down. rewrite easy_listeners. unfold unregistered.
      apply elem_of_app. left. do 2 apply list_elem_of_further.
      apply list_elem_of_here.
  - apply step_up.
    change (Host.listeners (host easy_aimed))
      with (Host.listeners (host easy_world)).
    rewrite easy_listeners. unfold unregistered.
    apply elem_of_app. left. do 4 apply list_elem_of_further.
    apply list_elem_of_here.
Qed.

Lemma easy_shot_won : hit easy_shot = true /\ won easy_shot = true.
Proof.
  rewrite easy_shot_eq. split; [reflexivity|].
  unfold won. apply bool_decide_eq_true_2.
  rewrite distance_normalized. apply distance_le_iff.
  unfold distanceSquared. cbn [Position.x Position.y].
  change (Ball.position
            (ball (on_scene (SceneSet.mouseCurrent None)
                     (on_scene (SceneSet.mouseStart None)
                        (shoot (pointer easy_aimed demo_aim) easy_aimed)))))
    with (Position.mk 0 0).
  change (Scene.hole
            (scene (on_scene (SceneSet.mouseCurrent None)
                      (on_scene (SceneSet.mouseStart None)
                         (shoot (pointer easy_aimed demo_aim) easy_aimed)))))
    with (Circle.mk 0 0 20).
  change (Ball.radius
            (ball (on_scene (SceneSet.mouseCurrent None)
                     (on_scene (SceneSet.mouseStart None)
                        (shoot (pointer easy_aimed demo_aim) easy_aimed)))))
    with 10.
  cbn [Position.x Position.y Circle.position Circle.x Circle.y Circle.radius].
  split; lra.
Qed.

Lemma win_stops_the_loop_witness :
  Host.frames
    (host (reset (tick 3 16 (cancelAnimationFrame 1 easy_shot))))
  = [].
Proof.
  destruct easy_shot_won as [Hhit Hwon].
  apply (win_stops_the_loop 30 3 1%nat 16 easy_shot _ easy_shot_reachable).
  - rewrite easy_shot_eq.
    change (1%nat ∈ [1%nat]). apply list_elem_of_here.
  - exact Hhit.
  - exact Hwon.
  - apply (reaches_step 30 3 _ (tick 3 16 (cancelAnimationFrame 1 easy_shot)));
      [apply reaches_here|apply step_reset].
Defined.

Lemma destroyed_scene_stays_still_witness :
  Host.frames (host (reset (destroy demo_world))) = []
  /\ ((CanvasElement, "mouseup", OnUp)
        ∉ Host.listeners (host (reset (destroy demo_world)))).
Proof.
  destruct (destroyed_scene_stays_still 30 3 demo_world
              (reset (destroy demo_world)) demo_reachable)
    as (Hframes & Hlisteners).
  - apply (reaches_step 30 3 _ (destroy demo_world));
      [apply reaches_here|apply step_reset].
  - split; [exact Hframes|]. apply Hlisteners. unfold unregistered.
    do 4 apply list_elem_of_further. apply list_elem_of_here.
Defined.

Lemma release_after_drag_only_ends_gesture_witness :
  hit demo_aimed = false
  /\ hit (up 30 demo_release demo_aimed) = false
  /\ ball (up 30 demo_release demo_aimed) = ball demo_aimed
  /\ Scene.mouseStart (scene (up 30 demo_release demo_aimed)) = None.
Proof.
  split; [reflexivity|].
  destruct (release_after_drag_only_ends_gesture 30 demo_release demo_aimed
              (MouseStart.mk (Position.x (pointer demo_world demo_aim))
                             (Position.y (pointer demo_world demo_aim)) 0)
              eq_refl eq_refl)
    as (_ & Hball & Hhit & _ & _ & _ & _ & _ & Hstart & _).
  - discriminate.
  - intros (_ & Hx & _). revert Hx. unfold demo_release, demo_aim.
    rewrite !demo_pointer by reflexivity. cbn [Position.x MouseStart.x]. lra.
  - split; [exact Hhit|]. split; [exact Hball|exact Hstart].
Defined.

Lemma primary_move_drags_or_pans_witness :
  forces (move 30 demo_release demo_aimed) = forces demo_aimed
  /\ ball (move 30 demo_release demo_aimed) = ball demo_aimed
  /\ length (heap (move 30 demo_release demo_aimed))
     = length (heap demo_aimed).
Proof.
  destruct (primary_move_drags_or_pans 30 demo_release demo_aimed
              (MouseStart.mk (Position.x (pointer demo_world demo_aim))
                             (Position.y (pointer demo_world demo_aim)) 0)
              (MouseCurrent.mk
                 (Position.x (pointer demo_world demo_aim))
                 (Position.y (pointer demo_world demo_aim))
                 (find (mouseOnForce 30 demo_world
                          (pointer demo_world demo_aim))
                       (forces demo_world)))
              eq_refl eq_refl eq_refl)
    as (Hball & _ & Hforces & _ & Hlength & _).
  split; [exact Hforces|]. split; [exact Hball|exact Hlength].
Defined.

Lemma idle_move_changes_only_cursor_witness :
  scene (move 30 demo_release demo_world) = scene demo_world
  /\ heap (move 30 demo_release demo_world) = heap demo_world.
Proof.
  destruct (idle_move_changes_only_cursor 30 demo_release demo_world)
    as (Hscene & Hheap & _).
  - intros start current Hstart _.
    change (None = Some start) in Hstart. discriminate.
  - split; [exact Hscene|exact Hheap].
Defined.

(** * The publish overlay *)

Section PublishProperties.

Variable RawLevel : Type.
Variable Value : Type.
Variable errorFromValue : Publish.Thrown Value -> string.

(** X20: whatever the name and however the body, the request and the
    navigation end, [publish] leaves [loading] false (its [finally] also
    runs on the early return) and changes neither the name nor the scene;
    with an empty name it sends no request, hides no overlay, navigates
    nowhere and reports nothing. *)
Theorem publish_always_stops_loading
    (body : Publish.BodyOutcome RawLevel Value)
    (fetched : Publish.FetchOutcome Value)
    (navigated : Publish.GotoOutcome Value)
    (c : Publish.Component RawLevel Value) :
  let c' := Publish.publish RawLevel Value errorFromValue body fetched
              navigated c in
  Publish.loading _ _ c' = false
  /\ Publish.name _ _ c' = Publish.name _ _ c
  /\ Publish.resets _ _ c' = Publish.resets _ _ c
  /\ (Publish.name _ _ c = "" ->
      Publish.requests _ _ c' = Publish.requests _ _ c
      /\ Publish.overlaysHidden _ _ c' = Publish.overlaysHidden _ _ c
      /\ Publish.navigations _ _ c' = Publish.navigations _ _ c
      /\ Publish.alerts _ _ c' = Publish.alerts _ _ c
      /\ Publish.consoleErrors _ _ c' = Publish.consoleErrors _ _ c).
Proof.
  intros c'. subst c'. unfold Publish.publish.
  destruct (decide (Publish.name _ _ c = "")) as [Hempty|Hname].
  - do 3 (split; [reflexivity|]). intros _. repeat split.
  - destruct body as [snapshot|thrown];
      [destruct fetched as [v|[|] status [t|v]]; destruct navigated|];
      do 3 (split; [reflexivity|]); intros Hempty; contradiction.
Qed.

(** X21: with a name, [publish] sends at most one request: a POST to
    [/communityLevels] of that name and the snapshot when the body could be
    built, and none when building it threw.  It hides the overlay and
    navigates to [/levels/community] when the request was sent and the
    response came and was ok, and in no other case.  It reports a failure
    once, to the console and in an alert of the same value, or a success
    not at all: the only run without an alert is a body built, an ok
    response and a navigation that succeeds; what building the body threw
    is what is reported. *)
Theorem publish_request_navigation_alert
    (body : Publish.BodyOutcome RawLevel Value)
    (fetched : Publish.FetchOutcome Value)
    (navigated : Publish.GotoOutcome Value)
    (c : Publish.Component RawLevel Value) :
  Publish.name _ _ c <> "" ->
  let c' := Publish.publish RawLevel Value errorFromValue body fetched
              navigated c in
  Publish.requests _ _ c'
  = Publish.requests _ _ c ++ Publish.sent _ _ (Publish.name _ _ c) body
  /\ Publish.navigations _ _ c'
     = (if Publish.published _ _ body fetched
        then Publish.navigations _ _ c ++ ["/levels/community"]
        else Publish.navigations _ _ c)
  /\ Publish.overlaysHidden _ _ c'
     = (if Publish.published _ _ body fetched
        then S (Publish.overlaysHidden _ _ c)
        else Publish.overlaysHidden _ _ c)
  /\ (exists reported,
        Publish.consoleErrors _ _ c'
        = Publish.consoleErrors _ _ c ++ reported
        /\ Publish.alerts _ _ c'
           = Publish.alerts _ _ c ++ map errorFromValue reported
        /\ (length reported <= 1)%nat
        /\ (reported = []
            <-> Publish.published _ _ body fetched = true
                /\ navigated = Publish.GotoResolved _)
        /\ (forall thrown,
              body = Publish.BodyThrown _ _ thrown -> reported = [thrown])).
Proof.
  intros Hname c'. subst c'. unfold Publish.publish.
  rewrite decide_False by exact Hname.
  destruct body as [snapshot|thrown];
    [destruct fetched as [v|[|] status [t|v]]|];
    destruct navigated as [|v'];
    (split; [cbn; now rewrite ?app_nil_r|]); (split; [reflexivity|]);
    (split; [reflexivity|]);
    first
      [ exists []; cbn;
        rewrite !app_nil_r;
        (split; [reflexivity|]); (split; [reflexivity|]);
        (split; [lia|]); split; [split; auto|discriminate]
      | eexists [_]; cbn;
        (split; [reflexivity|]); (split; [reflexivity|]);
        (split; [lia|]); split;
        [ split; [discriminate|intros [H1 H2]; discriminate]
        | intros thrown' Hthrown; congruence ] ].
Qed.

End PublishProperties.

Lemma publish_request_navigation_alert_witness :
  Publish.navigations unit unit
    (Publish.publish unit unit (fun _ => "failed") (Publish.BodyBuilt _ _ tt)
       (Publish.FetchResponse unit true 200 (Publish.TextResolved unit ""))
       (Publish.GotoResolved unit)
       (Publish.mkComponent unit unit "My level" false [] 0 [] [] [] 0))
  = ["/levels/community"]
  /\ Publish.requests unit unit
       (Publish.publish unit unit (fun _ => "failed")
          (Publish.BodyThrown _ _ (Publish.Rejection unit tt))
          (Publish.FetchResponse unit true 200 (Publish.TextResolved unit ""))
          (Publish.GotoResolved unit)
          (Publish.mkComponent unit unit "My level" false [] 0 [] [] [] 0))
     = [].
Proof.
  split.
  - destruct (publish_request_navigation_alert unit unit (fun _ => "failed")
                (Publish.BodyBuilt _ _ tt)
                (Publish.FetchResponse unit true 200
                   (Publish.TextResolved unit ""))
                (Publish.GotoResolved unit)
                (Publish.mkComponent unit unit "My level" false [] 0 [] [] []
                                     0))
      as (_ & Hnavigations & _); [discriminate|exact Hnavigations].
  - destruct (publish_request_navigation_alert unit unit (fun _ => "failed")
                (Publish.BodyThrown _ _ (Publish.Rejection unit tt))
                (Publish.FetchResponse unit true 200
                   (Publish.TextResolved unit ""))
                (Publish.GotoResolved unit)
                (Publish.mkComponent unit unit "My level" false [] 0 [] [] []
                                     0))
      as (Hrequests & _); [discriminate|exact Hrequests].
Defined.

(** * The first scene *)

Lemma filter_everything {A : Type} (P : A -> Prop)
    `{!forall x, Decision (P x)} (l : list A) :
  (forall x, x ∈ l -> P x) -> filter P l = l.
Proof.
  induction l as [|y l IH]; intros Hall; [reflexivity|].
  rewrite filter_cons_True by (apply Hall, list_elem_of_here).
  f_equal. apply IH. intros x Hx. apply Hall. now apply list_elem_of_further.
Qed.

Lemma legacy_add_fresh (l : Listener) (w : Legacy.World) :
  l ∉ Host.listeners (Legacy.host w) ->
  Host.listeners (Legacy.host (Legacy.addEventListener l w))
  = Host.listeners (Legacy.host w) ++ [l]
  /\ Host.frames (Legacy.host (Legacy.addEventListener l w))
     = Host.frames (Legacy.host w)
  /\ Host.nextHandle (Legacy.host (Legacy.addEventListener l w))
     = Host.nextHandle (Legacy.host w)
  /\ Legacy.scene (Legacy.addEventListener l w) = Legacy.scene w.
Proof.
  intros Hfresh. unfold Legacy.addEventListener, Legacy.on_host.
  cbn [Legacy.host Legacy.scene].
  rewrite decide_False by exact Hfresh. repeat split.
Qed.

Lemma legacy_destroy_listeners (w : Legacy.World) :
  Host.listeners (Legacy.host (Legacy.destroy w))
  = filter (fun l => l ∉ unregistered) (Host.listeners (Legacy.host w)).
Proof.
  transitivity
    (filter (fun l => l <> (CanvasElement, "mouseup", OnUp))
       (filter (fun l => l <> (CanvasElement, "mousemove", OnMove))
          (filter (fun l => l <> (CanvasElement, "mousedown", OnDown))
             (filter (fun l => l <> (Document, "keydown", OnKey))
                (filter (fun l => l <> (Window, "resize", OnResize))
                   (Host.listeners (Legacy.host w))))))).
  - unfold Legacy.destroy.
    cbn [Legacy.scene Legacy.removeEventListener Legacy.on_host].
    destruct (Legacy.frame (Legacy.scene w)) as [handle|]; [|reflexivity].
    destruct (decide (handle = 0%nat)); reflexivity.
  - rewrite !list_filter_filter. apply list_filter_iff. intros l.
    unfold unregistered. rewrite !not_elem_of_cons.
    pose proof (not_elem_of_nil l). tauto.
Qed.

Section LegacyProperties.

Variable normalizeCircle : Position.t -> Canvas.t -> Position.t.
Variable normalizeRectangle : Wall.t -> Canvas.t -> Wall.t.

(** X22: the first scene takes away in [destroy] every listener its
    constructor registered, and cancels the frame it requested: in a host
    that holds none of these listeners and no pending frame, constructing
    the scene and destroying it leaves the listeners and the pending frames
    as they were. *)
Theorem legacy_destroy_undoes_constructor (environment : Host.t)
    (width height : R) (lvl : Legacy.Level) :
  (forall l, l ∈ unregistered -> l ∉ Host.listeners environment) ->
  Host.frames environment = [] ->
  (0 < Host.nextHandle environment)%nat ->
  Host.listeners
    (Legacy.host (Legacy.destroy (Legacy.construct environment width height lvl)))
  = Host.listeners environment
  /\ Host.frames
       (Legacy.host
          (Legacy.destroy (Legacy.construct environment width height lvl)))
     = [].
Proof.
  intros Hnone Hframes Hnext.
  destruct lvl as [id [[bx by_] br] [[hx hy] hr] ws].
  unfold Legacy.construct. cbn [Legacy.level_hole].
  set (this := Legacy.mkScene _ _ _ _ _ _ _ _ _ _).
  set (w0 := Legacy.resize width height
               (Legacy.clear (Legacy.mkWorld this environment []))).
  assert (H0 : Host.listeners (Legacy.host w0) = Host.listeners environment
               /\ Host.frames (Legacy.host w0) = []
               /\ Host.nextHandle (Legacy.host w0)
                  = Host.nextHandle environment)
    by (repeat split; exact Hframes).
  destruct H0 as (Hl0 & Hf0 & Hn0). clearbody w0.
  assert (Hfresh : forall l seen,
            l ∈ unregistered -> l ∉ seen ->
            l ∉ Host.listeners environment ++ seen).
  { intros l seen Hl Hseen Hin. apply elem_of_app in Hin.
    destruct Hin as [Hin|Hin]; [now apply (Hnone l Hl)|contradiction]. }
  set (w1 := Legacy.addEventListener (Window, "resize", OnResize) w0).
  destruct (legacy_add_fresh (Window, "resize", OnResize) w0)
    as (Hl1 & Hf1 & Hn1 & Hs1).
  { rewrite Hl0. apply Hnone. apply list_elem_of_here. }
  fold w1 in Hl1, Hf1, Hn1, Hs1. rewrite Hl0 in Hl1.
  set (w2 := Legacy.addEventListener (Document, "keydown", OnKey) w1).
  destruct (legacy_add_fresh (Document, "keydown", OnKey) w1)
    as (Hl2 & Hf2 & Hn2 & Hs2).
  { rewrite Hl1. apply Hfresh.
    - unfold unregistered. apply list_elem_of_further, list_elem_of_here.
    - rewrite not_elem_of_cons. split; [discriminate|apply not_elem_of_nil]. }
  fold w2 in Hl2, Hf2, Hn2, Hs2. rewrite Hl1, <- app_assoc in Hl2.
  set (w3 := Legacy.addEventListener (CanvasElement, "mousedown", OnDown) w2).
  destruct (legacy_add_fresh (CanvasElement, "mousedown", OnDown) w2)
    as (Hl3 & Hf3 & Hn3 & Hs3).
  { rewrite Hl2. apply Hfresh.
    - unfold unregistered. do 2 apply list_elem_of_further.
      apply list_elem_of_here.
    - cbn [app]. rewrite !not_elem_of_cons.
      repeat split; try discriminate. apply not_elem_of_nil. }
  fold w3 in Hl3, Hf3, Hn3, Hs3. rewrite Hl2, <- app_assoc in Hl3.
  set (w4 := Legacy.addEventListener (CanvasElement, "mousemove", OnMove) w3).
  destruct (legacy_add_fresh (CanvasElement, "mousemove", OnMove) w3)
    as (Hl4 & Hf4 & Hn4 & Hs4).
  { rewrite Hl3. apply Hfresh.
    - unfold unregistered. do 3 apply list_elem_of_further.
      apply list_elem_of_here.
    - cbn [app]. rewrite !not_elem_of_cons.
      repeat split; try discriminate. apply not_elem_of_nil. }
  fold w4 in Hl4, Hf4, Hn4, Hs4. rewrite Hl3, <- app_assoc in Hl4.
  set (w5 := Legacy.addEventListener (CanvasElement, "mouseup", OnUp) w4).
  destruct (legacy_add_fresh (CanvasElement, "mouseup", OnUp) w4)
    as (Hl5 & Hf5 & Hn5 & Hs5).
  { rewrite Hl4. apply Hfresh.
    - unfold unregistered. do 4 apply list_elem_of_further.
      apply list_elem_of_here.
    - cbn [app]. rewrite !not_elem_of_cons.
      repeat split; try discriminate. apply not_elem_of_nil. }
  fold w5 in Hl5, Hf5, Hn5, Hs5. rewrite Hl4, <- app_assoc in Hl5.
  cbn [app] in Hl5. fold unregistered in Hl5.
  rewrite Hf4, Hf3, Hf2, Hf1, Hf0 in Hf5.
  rewrite Hn4, Hn3, Hn2, Hn1, Hn0 in Hn5.
  clearbody w5. clear w1 w2 w3 w4 Hl1 Hl2 Hl3 Hl4 Hf1 Hf2 Hf3 Hf4 Hn1 Hn2 Hn3
    Hn4 Hs1 Hs2 Hs3 Hs4 Hs5 Hl0 Hf0 Hn0.
  cbv beta iota zeta delta [Legacy.requestAnimationFrame].
  set (w6 := Legacy.on_scene _ _).
  assert (Hl6 : Host.listeners (Legacy.host w6)
                = Host.listeners environment ++ unregistered)
    by exact Hl5.
  assert (Hf6 : Host.frames (Legacy.host w6) = [Host.nextHandle environment])
    by (unfold w6; cbn; now rewrite Hf5, Hn5).
  assert (Hs6 : Legacy.frame (Legacy.scene w6)
                = Some (Host.nextHandle environment))
    by (unfold w6; cbn; now rewrite Hn5).
  clearbody w6. split.
  - rewrite legacy_destroy_listeners, Hl6, filter_app.
    rewrite (filter_everything _ (Host.listeners environment)).
    + rewrite filter_none; [apply app_nil_r|]. intros l Hl Hnot. contradiction.
    + intros l Hl Hin. now apply (Hnone l Hin).
  - unfold Legacy.destroy.
    cbn [Legacy.scene Legacy.removeEventListener Legacy.on_host].
    rewrite Hs6. rewrite decide_False by lia.
    unfold Legacy.cancelAnimationFrame. cbn. rewrite Hf6.
    rewrite filter_cons_False by (intros Hne; now apply Hne).
    reflexivity.
Qed.

End LegacyProperties.

Section LegacyGestures.

Variable normalizeCircle : Position.t -> Canvas.t -> Position.t.

(** X23: in the first scene every pointer handler is gated by the mode:
    while the ball is under way a press, a move and a release return at once
    and leave the world, gesture included, as it is. *)
Theorem legacy_pointer_ignored_in_motion (e : MouseEvent) (w : Legacy.World) :
  Legacy.hit (Legacy.scene w) = true ->
  Legacy.down normalizeCircle e w = w
  /\ Legacy.move normalizeCircle e w = w
  /\ Legacy.up normalizeCircle e w = w.
Proof.
  intros Hhit. unfold Legacy.down, Legacy.move, Legacy.up.
  rewrite Hhit. repeat split.
Qed.

(** X24: in the first scene a click on a force shoots the ball and does not
    end the gesture on the force: [mouseCurrent] still holds it.  After a
    [reset], a move of the pointer with no button pressed ([mouseStart] is
    [null]) still drags that force, by the displacement of the pointer since
    the click. *)
Theorem legacy_click_on_force_keeps_dragging (e e' : MouseEvent)
    (w : Legacy.World) (r : ref) :
  Legacy.hit (Legacy.scene w) = false ->
  find (Legacy.under normalizeCircle w (Legacy.pointer w e))
       (Legacy.forces (Legacy.scene w)) = Some r ->
  (r < length (Legacy.heap w))%nat ->
  let shot := Legacy.up normalizeCircle e (Legacy.down normalizeCircle e w) in
  let w' := Legacy.reset shot in
  Legacy.hit (Legacy.scene shot) = true
  /\ Legacy.hit (Legacy.scene w') = false
  /\ Legacy.mouseStart (Legacy.scene w') = None
  /\ Legacy.mouseCurrent (Legacy.scene w')
     = Some (Legacy.mkCurrent (Position.x (Legacy.pointer w e))
                              (Position.y (Legacy.pointer w e)) r)
  /\ Legacy.deref (Legacy.move normalizeCircle e' w') r
     = Force.mk
         (Force.x (Legacy.deref w r)
          + (Position.x (Legacy.pointer w e') - Position.x (Legacy.pointer w e)))
         (Force.y (Legacy.deref w r)
          - (Position.y (Legacy.pointer w e') - Position.y (Legacy.pointer w e)))
         (Force.direction (Legacy.deref w r)).
Proof.
  intros Hhit Hfind Hr shot w'.
  set (m := Legacy.pointer w e) in *.
  set (w1 := Legacy.down normalizeCircle e w).
  assert (Hw1 : w1 = Legacy.on_scene
                       (Legacy.set_mouseCurrent
                          (Some (Legacy.mkCurrent (Position.x m)
                                                  (Position.y m) r)))
                       (Legacy.on_scene (Legacy.set_mouseStart (Some m)) w)).
  { unfold w1, Legacy.down. rewrite Hhit. fold m.
    change (Legacy.under normalizeCircle
              (Legacy.on_scene (Legacy.set_mouseStart (Some m)) w))
      with (Legacy.under normalizeCircle w).
    change (Legacy.forces
              (Legacy.scene (Legacy.on_scene (Legacy.set_mouseStart (Some m))
                                             w)))
      with (Legacy.forces (Legacy.scene w)).
    now rewrite Hfind. }
  assert (Hshot : Legacy.hit (Legacy.scene shot) = true
                  /\ Legacy.mouseStart (Legacy.scene shot) = None
                  /\ Legacy.mouseCurrent (Legacy.scene shot)
                     = Some (Legacy.mkCurrent (Position.x m) (Position.y m) r)
                  /\ Legacy.heap shot = Legacy.heap w
                  /\ Legacy.host shot = Legacy.host w
                  /\ Legacy.forces (Legacy.scene shot)
                     = Legacy.forces (Legacy.scene w)).
  { unfold shot. fold w1. rewrite Hw1. unfold Legacy.up.
    cbn [Legacy.hit Legacy.scene Legacy.on_scene Legacy.set_mouseCurrent
         Legacy.set_mouseStart Legacy.mouseStart].
    rewrite Hhit.
    change (Legacy.pointer
              (Legacy.on_scene
                 (Legacy.set_mouseCurrent
                    (Some (Legacy.mkCurrent (Position.x m) (Position.y m) r)))
                 (Legacy.on_scene (Legacy.set_mouseStart (Some m)) w)) e)
      with m.
    rewrite decide_True by (split; reflexivity).
    repeat split. }
  destruct Hshot as (Hs1 & Hs2 & Hs3 & Hs4 & Hs5 & Hs6).
  assert (Hw' : Legacy.hit (Legacy.scene w') = false
                /\ Legacy.mouseStart (Legacy.scene w') = None
                /\ Legacy.mouseCurrent (Legacy.scene w')
                   = Some (Legacy.mkCurrent (Position.x m) (Position.y m) r)
                /\ Legacy.heap w' = Legacy.heap w
                /\ Legacy.host w' = Legacy.host w).
  { unfold w', Legacy.reset.
    cbn [Legacy.scene Legacy.on_scene Legacy.set_hit Legacy.level].
    destruct (Legacy.level_ball (Legacy.level (Legacy.scene shot)))
      as [[bx by_] br].
    repeat split; assumption. }
  destruct Hw' as (Hh & Hms & Hmc & Hheap & Hhost).
  split; [exact Hs1|]. split; [exact Hh|]. split; [exact Hms|].
  split; [exact Hmc|].
  unfold Legacy.move. rewrite Hh, Hmc.
  unfold Legacy.deref at 1.
  cbn [Legacy.heap Legacy.setCursor Legacy.on_host Legacy.on_scene
       Legacy.set_heap Legacy.force Legacy.cx Legacy.cy].
  rewrite list_lookup_total_insert_eq by (rewrite Hheap; exact Hr).
  unfold Legacy.deref. rewrite Hheap.
  unfold Legacy.pointer. rewrite Hhost. reflexivity.
Qed.

End LegacyGestures.

Lemma legacy_destroy_undoes_constructor_witness :
  Host.listeners (Legacy.host (Legacy.destroy legacy_world)) = []
  /\ Host.frames (Legacy.host (Legacy.destroy legacy_world)) = [].
Proof.
  apply (legacy_destroy_undoes_constructor demo_host 200 200 legacy_level).
  - intros l _. apply not_elem_of_nil.
  - reflexivity.
  - cbn. lia.
Defined.

Lemma legacy_pointer_ignored_in_motion_witness :
  Legacy.down legacy_normalize legacy_press
    (Legacy.on_scene (Legacy.set_hit true) legacy_world)
  = Legacy.on_scene (Legacy.set_hit true) legacy_world.
Proof.
  apply (legacy_pointer_ignored_in_motion legacy_normalize legacy_press
           (Legacy.on_scene (Legacy.set_hit true) legacy_world)).
  reflexivity.
Defined.

Lemma legacy_pointer (a b k : Z) (w : Legacy.World) :
  Host.devicePixelRatio (Legacy.host w) = 1 ->
  Legacy.pointer w (Build_MouseEvent (IZR a) (IZR b) k)
  = Position.mk (IZR a) (IZR b).
Proof.
  intros Hscale. unfold Legacy.pointer. cbn [offsetX offsetY].
  now rewrite !Zfloor_integer by exact Hscale.
Qed.

Lemma legacy_press_finds_force :
  find (Legacy.under legacy_normalize legacy_world
          (Legacy.pointer legacy_world legacy_press))
       (Legacy.forces (Legacy.scene legacy_world)) = Some 0%nat.
Proof.
  change (Legacy.forces (Legacy.scene legacy_world)) with [0%nat].
  cbn [find]. unfold legacy_press. rewrite legacy_pointer by reflexivity.
  unfold Legacy.under, Legacy.deref.
  change (Legacy.heap legacy_world) with [Force.mk (-100) 0 1].
  change (Host.canvas (Legacy.host legacy_world)) with (Canvas.mk 200 200 "").
  change ([Force.mk (-100) 0 1] !!! 0%nat) with (Force.mk (-100) 0 1).
  rewrite bool_decide_eq_true_2; [reflexivity|].
  apply distance_le_iff.
  unfold legacy_normalize, normalizePoint, distanceSquared, Legacy.FORCE_RADIUS.
  cbn [Force.position Force.x Force.y Position.x Position.y Canvas.width
       Canvas.height].
  split; lra.
Qed.

Lemma legacy_click_on_force_keeps_dragging_witness :
  Legacy.mouseStart
    (Legacy.scene
       (Legacy.reset
          (Legacy.up legacy_normalize legacy_press
             (Legacy.down legacy_normalize legacy_press legacy_world))))
  = None
  /\ Force.x
       (Legacy.deref
          (Legacy.move legacy_normalize legacy_hover
             (Legacy.reset
                (Legacy.up legacy_normalize legacy_press
                   (Legacy.down legacy_normalize legacy_press legacy_world))))
          0%nat)
     = -100 + (10 - 0).
Proof.
  destruct (legacy_click_on_force_keeps_dragging legacy_normalize legacy_press
              legacy_hover legacy_world 0%nat eq_refl legacy_press_finds_force)
    as (_ & _ & Hstart & _ & Hdragged).
  - cbn. lia.
  - split; [exact Hstart|]. rewrite Hdragged.
    unfold legacy_press, legacy_hover.
    rewrite !legacy_pointer by reflexivity. reflexivity.
Defined.
